(** * kancli: the board state machine of [main.go]

    A shallow embedding of the terminal kanban board: the [status]
    enumeration, [Task], the board [Model] with its three columns, the
    new-task [Form], the two-slot registry [models] and the [Update]
    functions of both modes, followed by the properties of the board's
    state machine.

    Go values are embedded as follows.
    - [int] (and the named type [status]) is a [Z]; arithmetic that can
      overflow goes through [int_wrap] (64-bit two's complement).
    - A struct is a record; assigning or passing a struct copies it.
    - A slice of structs ([m.lists]) is a reference to a backing array that
      lives in a [Heap]; copying a [Model] copies the reference, so two
      copies of a [Model] share their columns.
    - A panic (index out of range) is [None] in the [option] monad. *)

From Stdlib Require Import ZArith Lia Bool.
From stdpp Require Import base option list strings.

Local Open Scope string_scope.
Local Open Scope list_scope.
Local Open Scope Z_scope.

(** ** Machine integers *)

Definition int_wrap (z : Z) : Z := (z + 2 ^ 63) mod 2 ^ 64 - 2 ^ 63.

(** ** [type status int] and its constants *)

Definition status := Z.

Definition divisor : Z := 4.

Definition todo : status := 0.
Definition inProgress : status := 1.
Definition done : status := 2.

(** The second [iota] block of the source: indices into [models]. *)
Definition model : status := 0.
Definition form : status := 1.

(** The three values the enumeration names. *)
Definition valid_status (s : status) : Prop :=
  s = todo \/ s = inProgress \/ s = done.

Definition valid_statusb (s : status) : bool :=
  (s =? todo) || (s =? inProgress) || (s =? done).

(** ** Task *)

Record Task := mkTask {
  Task_status : status;
  Task_title : string;
  Task_description : string;
}.

Definition NewTask (st : status) (title description : string) : Task :=
  {| Task_status := st; Task_title := title; Task_description := description |}.

(** [func (t *Task) Next()]: the receiver is updated in place; the embedding
    returns the updated struct. *)
Definition Task_Next (t : Task) : Task :=
  if Task_status t =? done
  then {| Task_status := todo;
          Task_title := Task_title t;
          Task_description := Task_description t |}
  else {| Task_status := int_wrap (Task_status t + 1);
          Task_title := Task_title t;
          Task_description := Task_description t |}.

Definition Task_FilterValue (t : Task) : string := Task_title t.
Definition Task_Title (t : Task) : string := Task_title t.
Definition Task_Description (t : Task) : string := Task_description t.

(** ** The list widget (package bubbles/list)

    [list.Model] belongs to an external package.  The board uses it through
    [New], [Items], [Index], [SelectedItem], [RemoveItem], [InsertItem],
    [SetShowHelp], the field [Title] and [Update].  The only type of this
    program that implements [list.Item] is [Task]. *)

Definition Item := Task.

(** Modelled from the spec: the Column of section 3, standing for
    [list.Model], whose source is not part of this repository: an ordered
    sequence of tasks plus a zero-based selected index; the title, the size
    and the help switch are the fields [initLists] sets. *)
Record list_Model := mk_list_Model {
  list_items : list Item;
  list_cursor : Z;
  list_Title : string;
  list_width : Z;
  list_height : Z;
  list_showHelp : bool;
}.

(** Modelled from the spec: [list.New], missing from the sources; a column
    is allocated with the given items and size (section 4.3, initColumns),
    its selected index at the first position; the delegate argument only
    matters to rendering and is left out. *)
Definition list_New (its : list Item) (width height : Z) : list_Model :=
  {| list_items := its; list_cursor := 0; list_Title := "";
     list_width := width; list_height := height; list_showHelp := true |}.

(** Modelled from the spec: [list.Model.Items], missing from the sources;
    the column's ordered sequence of tasks. *)
Definition list_Items (l : list_Model) : list Item := list_items l.

(** Modelled from the spec: [list.Model.Index], missing from the sources;
    the column's selected index. *)
Definition list_Index (l : list_Model) : Z := list_cursor l.

(** Modelled from the spec: [list.Model.SelectedItem], missing from the
    sources; section 4.2 selectedTask(): the task at the selected index, or
    none ([nil]) if the column is empty or the index selects nothing. *)
Definition list_SelectedItem (l : list_Model) : option Item :=
  if (0 <=? list_Index l) && (list_Index l <? Z.of_nat (length (list_items l)))
  then list_items l !! Z.to_nat (list_Index l)
  else None.

(** An index brought into [[0, len-1]], and to 0 for an empty column; this
    is how the sample column widget below keeps its cursor on an item. *)
Definition clamp_cursor (c : Z) (len : nat) : Z :=
  if (len =? 0)%nat then 0 else Z.max 0 (Z.min c (Z.of_nat len - 1)).

(** Modelled from the spec: [list.Model.RemoveItem], missing from the
    sources; for the removal itself section 4.2 removeSelected(): the task
    at the index is removed if there is one (no-op otherwise).  The
    re-clamping of the selection that section 4.2 asks for is no part of the
    model: the board never re-clamps after the call, and the package's
    [RemoveItem] leaves the cursor where it is. *)
Definition list_RemoveItem (index : Z) (l : list_Model) : list_Model :=
  if (0 <=? index) && (index <? Z.of_nat (length (list_items l)))
  then
    let its := delete (Z.to_nat index) (list_items l) in
    {| list_items := its;
       list_cursor := list_cursor l;
       list_Title := list_Title l;
       list_width := list_width l;
       list_height := list_height l;
       list_showHelp := list_showHelp l |}
  else l.

(** Modelled from the spec: [list.Model.InsertItem], missing from the
    sources; section 4.2 insertAtEnd when called with the length: the
    existing order and the selection are kept. *)
Definition list_InsertItem (index : Z) (it : Item) (l : list_Model) : list_Model :=
  let i := Z.to_nat (Z.max 0 index) in
  {| list_items := take i (list_items l) ++ it :: drop i (list_items l);
     list_cursor := list_cursor l;
     list_Title := list_Title l;
     list_width := list_width l;
     list_height := list_height l;
     list_showHelp := list_showHelp l |}.

(** Modelled from the spec: [list.Model.SetShowHelp], missing from the
    sources; it switches the help panel and nothing else. *)
Definition list_SetShowHelp (v : bool) (l : list_Model) : list_Model :=
  {| list_items := list_items l;
     list_cursor := list_cursor l;
     list_Title := list_Title l;
     list_width := list_width l;
     list_height := list_height l;
     list_showHelp := v |}.

(** The assignment [l.Title = s]. *)
Definition list_set_Title (s : string) (l : list_Model) : list_Model :=
  {| list_items := list_items l;
     list_cursor := list_cursor l;
     list_Title := s;
     list_width := list_width l;
     list_height := list_height l;
     list_showHelp := list_showHelp l |}.

(** ** The text widgets (packages bubbles/textinput and bubbles/textarea) *)

(** Modelled from the spec: the title field of section 3, standing for
    [textinput.Model], whose source is not part of this repository: the text
    it holds and its own focus flag. *)
Record textinput_Model := mk_textinput {
  textinput_value : string;
  textinput_focus : bool;
}.

(** Modelled from the spec: the description field of section 3, standing for
    [textarea.Model], whose source is not part of this repository. *)
Record textarea_Model := mk_textarea {
  textarea_value : string;
  textarea_focus : bool;
}.

(** Modelled from the spec: [textinput.New], missing from the sources; a new
    field is empty and not focused (section 3: the form is title-first, which
    is what [NewForm] arranges by focusing the title). *)
Definition textinput_New : textinput_Model :=
  {| textinput_value := ""; textinput_focus := false |}.

(** Modelled from the spec: [textinput.Model.Focus], missing from the
    sources; it sets the focus flag. *)
Definition textinput_Focus (t : textinput_Model) : textinput_Model :=
  {| textinput_value := textinput_value t; textinput_focus := true |}.

(** Modelled from the spec: [textinput.Model.Blur], missing from the sources;
    it clears the focus flag. *)
Definition textinput_Blur (t : textinput_Model) : textinput_Model :=
  {| textinput_value := textinput_value t; textinput_focus := false |}.

(** Modelled from the spec: [textinput.Model.Focused], missing from the
    sources; the focus flag. *)
Definition textinput_Focused (t : textinput_Model) : bool := textinput_focus t.

(** Modelled from the spec: [textinput.Model.Value], missing from the
    sources; the captured title text (section 4.4). *)
Definition textinput_Value (t : textinput_Model) : string := textinput_value t.

(** Modelled from the spec: [textarea.New], missing from the sources; a new
    field is empty and not focused. *)
Definition textarea_New : textarea_Model :=
  {| textarea_value := ""; textarea_focus := false |}.

(** Modelled from the spec: [textarea.Model.Focus], missing from the sources;
    it sets the focus flag. *)
Definition textarea_Focus (t : textarea_Model) : textarea_Model :=
  {| textarea_value := textarea_value t; textarea_focus := true |}.

(** Modelled from the spec: [textarea.Model.Focused], missing from the
    sources; the focus flag. *)
Definition textarea_Focused (t : textarea_Model) : bool := textarea_focus t.

(** Modelled from the spec: [textarea.Model.Value], missing from the sources;
    the captured description text (section 4.4). *)
Definition textarea_Value (t : textarea_Model) : string := textarea_value t.

(** ** The heap of column arrays

    [m.lists] is a slice: a reference to a backing array of [list.Model]
    structs.  The program never appends to it or re-slices it, so a slice is
    identified with its array: [None] is the nil slice. *)

Abbreviation loc := nat.
Abbreviation Heap := (list (list list_Model)).
Abbreviation slice := (option loc).

(** [len(s)] *)
Definition slice_len (h : Heap) (s : slice) : nat :=
  match s with
  | None => 0%nat
  | Some a => match h !! a with Some arr => length arr | None => 0%nat end
  end.

(** [s[i]] as a value; an index out of range panics. *)
Definition slice_get (h : Heap) (s : slice) (i : Z) : option list_Model :=
  a ← s; arr ← h !! a;
  if 0 <=? i then arr !! Z.to_nat i else None.

(** [s[i] = v], and every method called on [&s[i]]; an index out of range
    panics. *)
Definition slice_set (h : Heap) (s : slice) (i : Z) (v : list_Model) : option Heap :=
  a ← s; arr ← h !! a;
  if (0 <=? i) && (i <? Z.of_nat (length arr))
  then Some (<[a := <[Z.to_nat i := v]> arr]> h)
  else None.

(** [s = []list.Model{...}]: a fresh backing array. *)
Definition slice_alloc (h : Heap) (arr : list list_Model) : slice * Heap :=
  (Some (length h), h ++ [arr]).

(** ** The board *)

Record Model := mkModel {
  Model_loaded : bool;
  Model_focused : status;
  Model_lists : slice;
  Model_quitting : bool;
}.

(** [&Model{}] *)
Definition New : Model :=
  {| Model_loaded := false; Model_focused := 0;
     Model_lists := None; Model_quitting := false |}.

Definition set_focused (s : status) (m : Model) : Model :=
  {| Model_loaded := Model_loaded m; Model_focused := s;
     Model_lists := Model_lists m; Model_quitting := Model_quitting m |}.

(** [func (m *Model) MoveToNext() tea.Msg].  The result is the receiver
    after the call and the heap after the call; the returned message is
    always [nil].

    [targetList := m.lists[selectedTask.status]] copies the struct out of
    the array, and [InsertItem] has a pointer receiver, which is the address
    of that local copy: the array element is not written. *)
Definition MoveToNext (m : Model) (h : Heap) : option (Model * Heap) :=
  col ← slice_get h (Model_lists m) (Model_focused m);
  match list_SelectedItem col with
  | None => Some (m, h)
  | Some selectedItem =>
      let selectedTask : Task := selectedItem in
      h1 ← slice_set h (Model_lists m) (Model_focused m)
             (list_RemoveItem (list_Index col) col);
      let selectedTask := Task_Next selectedTask in
      targetList ← slice_get h1 (Model_lists m) (Task_status selectedTask);
      let targetList :=
        list_InsertItem (Z.of_nat (length (list_Items targetList)))
                        selectedTask targetList in
      Some (set_focused (Task_status selectedTask) m, h1)
  end.

(** [func (m *Model) DeleteTask() tea.Msg] *)
Definition DeleteTask (m : Model) (h : Heap) : option (Model * Heap) :=
  col ← slice_get h (Model_lists m) (Model_focused m);
  match list_SelectedItem col with
  | Some selectedItem =>
      h1 ← slice_set h (Model_lists m) (Model_focused m)
             (list_RemoveItem (list_Index col) col);
      Some (m, h1)
  | None => Some (m, h)
  end.

(** [func (m *Model) Next()] *)
Definition Model_Next (m : Model) : Model :=
  if Model_focused m =? done
  then set_focused todo m
  else set_focused (int_wrap (Model_focused m + 1)) m.

(** [func (m *Model) Prev()] *)
Definition Model_Prev (m : Model) : Model :=
  if Model_focused m =? todo
  then set_focused done m
  else set_focused (int_wrap (Model_focused m - 1)) m.

(** [func (m *Model) initLists(width, height int)].  Go's [/] on [int]
    truncates towards zero.  The three columns are written into the fresh
    array before it is stored, which no one can tell from writing them into
    it afterwards. *)
Definition initLists (width height : Z) (m : Model) (h : Heap) : Model * Heap :=
  let listWidth := width ÷ divisor in
  let listHeight := height ÷ 2 in
  let arr := [ list_New [] listWidth listHeight;
               list_New [] listWidth listHeight;
               list_New [] listWidth listHeight ] in
  let arr := list_SetShowHelp false <$> arr in
  let arr := alter (list_set_Title "To Do") (Z.to_nat todo) arr in
  let arr := alter (list_set_Title "In Progress") (Z.to_nat inProgress) arr in
  let arr := alter (list_set_Title "Done") (Z.to_nat done) arr in
  let '(s, h1) := slice_alloc h arr in
  ({| Model_loaded := Model_loaded m; Model_focused := Model_focused m;
      Model_lists := s; Model_quitting := Model_quitting m |}, h1).

(** ** Messages, the form and commands *)

(** The dynamic types a [tea.Msg] has in this program: [nil], the two
    messages [Model.Update] switches on (a key message is identified by its
    [String()]), the [Task] that [CreateTask] returns, and any other message
    of the libraries (named by a tag). *)
Inductive Msg :=
  | NilMsg
  | WindowSizeMsg (Width Height : Z)
  | KeyMsg (s : string)
  | TaskMsg (t : Task)
  | OtherMsg (tag : string).

Record Form := mkForm {
  Form_focused : status;
  Form_title : textinput_Model;
  Form_description : textarea_Model;
}.

Definition set_title (t : textinput_Model) (f : Form) : Form :=
  {| Form_focused := Form_focused f; Form_title := t;
     Form_description := Form_description f |}.

Definition set_description (d : textarea_Model) (f : Form) : Form :=
  {| Form_focused := Form_focused f; Form_title := Form_title f;
     Form_description := d |}.

(** [func NewForm(focused status) *Form] *)
Definition NewForm (focused : status) : Form :=
  let form := {| Form_focused := focused;
                 Form_title := {| textinput_value := ""; textinput_focus := false |};
                 Form_description := {| textarea_value := ""; textarea_focus := false |} |} in
  let form := set_title textinput_New form in
  let form := set_title (textinput_Focus (Form_title form)) form in
  let form := set_description textarea_New form in
  form.

(** [func (m Form) CreateTask() tea.Msg] *)
Definition Form_CreateTask (m : Form) : Task :=
  NewTask (Form_focused m) (textinput_Value (Form_title m))
          (textarea_Value (Form_description m)).

(** A [tea.Cmd] is a function value.  The ones this program returns are
    [nil], [tea.Quit], [textarea.Blink], whatever a widget's [Update]
    returns, and three method values; a method value of a pointer-receiver
    method ([m.MoveToNext], [m.DeleteTask]) holds the address of the
    variable [m] of the [Update] call that made it, here the value of that
    variable. *)
Inductive Cmd :=
  | NilCmd
  | tea_Quit
  | textarea_Blink
  | WidgetCmd (tag : string)
  | bound_MoveToNext (m : Model)
  | bound_DeleteTask (m : Model)
  | bound_CreateTask (m : Form).

(** The command a widget's [Update] returns: [nil], or a function of the
    library, which knows nothing of the board (named by a tag). *)
Definition widget_Cmd := option string.

Definition from_widget (c : widget_Cmd) : Cmd :=
  match c with
  | None => NilCmd
  | Some tag => WidgetCmd tag
  end.

(** The dynamic types of a [tea.Model].  [main] stores pointers ([*Model],
    [*Form]) whose pointees are never written again (both [Update] methods
    have value receivers), so a pointer stands for its pointee. *)
Inductive tea_Model :=
  | IsModel (m : Model)
  | IsForm (m : Form).

(** The global state: the heap and [var models []tea.Model], which [main]
    sets to a slice of length two and nothing resizes; its two slots are
    indexed by the constants [model] and [form]. *)
Record World := mkWorld {
  heap : Heap;
  models_model : tea_Model;
  models_form : tea_Model;
}.

Definition set_heap (h : Heap) (w : World) : World :=
  {| heap := h; models_model := models_model w; models_form := models_form w |}.

(** [models[i] = v] for the two constant indices. *)
Definition models_set (i : status) (v : tea_Model) (w : World) : World :=
  if i =? model
  then {| heap := heap w; models_model := v; models_form := models_form w |}
  else {| heap := heap w; models_model := models_model w; models_form := v |}.

(** [models[i]] for the two constant indices. *)
Definition models_get (i : status) (w : World) : tea_Model :=
  if i =? model then models_model w else models_form w.

Section Update.

(** The [Update] methods of the three widgets are external: how a column
    moves its cursor on a key and how a text field edits its text is the
    libraries' business. *)
Variable list_Update : Msg -> list_Model -> list_Model * widget_Cmd.
Variable textinput_Update : Msg -> textinput_Model -> textinput_Model * widget_Cmd.
Variable textarea_Update : Msg -> textarea_Model -> textarea_Model * widget_Cmd.

(** The tail of [Form.Update]: the message goes to the focused field. *)
Definition Form_delegate (msg : Msg) (m : Form) : Form * Cmd :=
  if textinput_Focused (Form_title m)
  then let '(t, cmd) := textinput_Update msg (Form_title m) in
       (set_title t m, from_widget cmd)
  else let '(d, cmd) := textarea_Update msg (Form_description m) in
       (set_description d m, from_widget cmd).

(** [func (m Form) Update(msg tea.Msg) (tea.Model, tea.Cmd)] *)
Definition Form_Update (msg : Msg) (m : Form) (w : World)
  : tea_Model * Cmd * World :=
  let tail := let '(m1, cmd) := Form_delegate msg m in (IsForm m1, cmd, w) in
  match msg with
  | KeyMsg s =>
      if String.eqb s "ctrl+c" then (IsForm m, tea_Quit, w)
      else if String.eqb s "enter" then
        if textinput_Focused (Form_title m) then
          let m := set_title (textinput_Blur (Form_title m)) m in
          let m := set_description (textarea_Focus (Form_description m)) m in
          (IsForm m, textarea_Blink, w)
        else
          let w := models_set form (IsForm m) w in
          (models_get model w, bound_CreateTask m, w)
      else tail
  | _ => tail
  end.

(** The tail of [Model.Update]:
    [m.lists[m.focused], cmd = m.lists[m.focused].Update(msg)]. *)
Definition Model_delegate (msg : Msg) (m : Model) (w : World)
  : option (tea_Model * Cmd * World) :=
  col ← slice_get (heap w) (Model_lists m) (Model_focused m);
  let '(col1, cmd) := list_Update msg col in
  h1 ← slice_set (heap w) (Model_lists m) (Model_focused m) col1;
  Some (IsModel m, from_widget cmd, set_heap h1 w).

(** [func (m Model) Update(msg tea.Msg) (tea.Model, tea.Cmd)].  The receiver
    [m] is a copy; the four calls on [columnStyle] and [focusedStyle] return
    new styles that are dropped, so they are no part of the state. *)
Definition Model_Update (msg : Msg) (m : Model) (w : World)
  : option (tea_Model * Cmd * World) :=
  match msg with
  | WindowSizeMsg Width Height =>
      if negb (Model_loaded m) then
        let '(m, h) := initLists Width Height m (heap w) in
        let m := {| Model_loaded := true; Model_focused := Model_focused m;
                    Model_lists := Model_lists m;
                    Model_quitting := Model_quitting m |} in
        Model_delegate msg m (set_heap h w)
      else Model_delegate msg m w
  | KeyMsg s =>
      if String.eqb s "ctrl+c" then
        let m := {| Model_loaded := Model_loaded m; Model_focused := Model_focused m;
                    Model_lists := Model_lists m; Model_quitting := true |} in
        Some (IsModel m, tea_Quit, w)
      else if String.eqb s "left" || String.eqb s "h" then
        Model_delegate msg (Model_Prev m) w
      else if String.eqb s "right" || String.eqb s "l" then
        Model_delegate msg (Model_Next m) w
      else if String.eqb s "enter" then
        Some (IsModel m, bound_MoveToNext m, w)
      else if String.eqb s "d" then
        Some (IsModel m, bound_DeleteTask m, w)
      else if String.eqb s "n" then
        let w := models_set model (IsModel m) w in
        let w := models_set form (IsForm (NewForm (Model_focused m))) w in
        (* models[form].Update(nil): the slot holds the form just stored *)
        Some (Form_Update NilMsg (NewForm (Model_focused m)) w)
      else Model_delegate msg m w
  | _ => Model_delegate msg m w
  end.

(** Dynamic dispatch of [Update] on a [tea.Model]. *)
Definition tea_Update (msg : Msg) (a : tea_Model) (w : World)
  : option (tea_Model * Cmd * World) :=
  match a with
  | IsModel m => Model_Update msg m w
  | IsForm m => Some (Form_Update msg m w)
  end.

(** Calling a command: the message it returns and its effect on the heap
    ([NilMsg] also stands for the nil command, which has nothing to
    deliver).  The bound receiver of [m.MoveToNext] is a variable nobody
    reads again, so what the call writes to it ([m.focused]) is dropped with
    it. *)
Definition call_Cmd (c : Cmd) (h : Heap) : option (Msg * Heap) :=
  match c with
  | NilCmd => Some (NilMsg, h)
  | tea_Quit => Some (OtherMsg "tea.QuitMsg", h)
  | textarea_Blink => Some (OtherMsg "cursor.blink", h)
  | WidgetCmd tag => Some (OtherMsg tag, h)
  | bound_MoveToNext m => '(_, h1) ← MoveToNext m h; Some (NilMsg, h1)
  | bound_DeleteTask m => '(_, h1) ← DeleteTask m h; Some (NilMsg, h1)
  | bound_CreateTask m => Some (TaskMsg (Form_CreateTask m), h)
  end.

(** ** The running program *)

Record Program := mkProgram {
  Program_world : World;
  Program_model : tea_Model;
}.

(** Modelled from the spec: the event loop of the external package
    bubbletea ([tea.NewProgram(m).Start()]), following sections 4.5 and 5:
    every message goes to the active model's [Update], the model it returns
    becomes the active one, and the command it returns is run to its end
    before the next message is accepted; the message the command returns is
    handed back for a later delivery. *)
Definition step (msg : Msg) (p : Program) : option (Program * Msg) :=
  '(a, cmd, w) ← tea_Update msg (Program_model p) (Program_world p);
  '(out, h) ← call_Cmd cmd (heap w);
  Some ({| Program_world := set_heap h w; Program_model := a |}, out).

(** Delivering a sequence of messages; a message a command returned may be
    any element of a later part of the sequence. *)
Fixpoint run (msgs : list Msg) (p : Program) : option Program :=
  match msgs with
  | [] => Some p
  | msg :: rest => '(p1, _) ← step msg p; run rest p1
  end.

(** [while_form p msgs p'] : the messages [msgs] take the program from [p]
    to [p'], and each of them was processed by a form (the form was the
    active model when the message arrived). *)
Inductive while_form : Program -> list Msg -> Program -> Prop :=
  | while_form_nil p : while_form p [] p
  | while_form_cons p m msg p1 out msgs p2 :
      Program_model p = IsForm m ->
      step msg p = Some (p1, out) ->
      while_form p1 msgs p2 ->
      while_form p (msg :: msgs) p2.

End Update.

(** [func main()]: the registry and the first active model. *)
Definition main : Program :=
  {| Program_world := {| heap := [];
                         models_model := IsModel New;
                         models_form := IsForm (NewForm todo) |};
     Program_model := IsModel New |}.

(** ** A concrete choice of widgets

    Used to run the program on examples: the column moves its cursor on
    "down"/"j" and "up"/"k" within its items, and a focused text field
    appends the key it is given. *)

Definition sample_list_Update (msg : Msg) (l : list_Model)
  : list_Model * widget_Cmd :=
  let move (c : Z) :=
    {| list_items := list_items l;
       list_cursor := clamp_cursor c (length (list_items l));
       list_Title := list_Title l;
       list_width := list_width l;
       list_height := list_height l;
       list_showHelp := list_showHelp l |} in
  match msg with
  | KeyMsg s =>
      if String.eqb s "down" || String.eqb s "j" then (move (list_cursor l + 1), None)
      else if String.eqb s "up" || String.eqb s "k" then (move (list_cursor l - 1), None)
      else (l, None)
  | _ => (l, None)
  end.

Definition sample_textinput_Update (msg : Msg) (t : textinput_Model)
  : textinput_Model * widget_Cmd :=
  match msg with
  | KeyMsg s =>
      if textinput_focus t
      then ({| textinput_value := String.append (textinput_value t) s;
               textinput_focus := textinput_focus t |}, None)
      else (t, None)
  | _ => (t, None)
  end.

Definition sample_textarea_Update (msg : Msg) (t : textarea_Model)
  : textarea_Model * widget_Cmd :=
  match msg with
  | KeyMsg s =>
      if textarea_focus t
      then ({| textarea_value := String.append (textarea_value t) s;
               textarea_focus := textarea_focus t |}, None)
      else (t, None)
  | _ => (t, None)
  end.

(** ** Boards to run the operations on

    A loaded board whose slice is the first array of the heap, the heap
    [initLists] leaves, and a heap whose To Do column holds one task. *)

Definition sample_board (focused : status) : Model :=
  {| Model_loaded := true; Model_focused := focused;
     Model_lists := Some 0%nat; Model_quitting := false |}.

Definition empty_heap : Heap := snd (initLists 80 24 New []).

Definition sample_task : Task := NewTask todo "Write spec" "Core engine".

Definition one_task_heap : Heap :=
  alter (alter (list_InsertItem 0 sample_task) 0%nat) 0%nat empty_heap.



(** ** Predicates of the properties *)

(** The selection of a column is absent (the column is empty and nothing is
    selected) or lies within [[0, len-1]]. *)
Definition selection_ok (l : list_Model) : Prop :=
  (list_Items l = [] /\ list_SelectedItem l = None)
  \/ 0 <= list_Index l <= Z.of_nat (length (list_Items l)) - 1.

(** The number of tasks in the column [i] of a board, [None] when there is no
    such column. *)
Definition column_length (h : Heap) (m : Model) (i : status) : option nat :=
  col ← slice_get h (Model_lists m) i; Some (length (list_Items col)).

(** The focus of a board, or the target status of a form, is one of the
    three status values. *)
Definition tea_focus_ok (a : tea_Model) : Prop :=
  match a with
  | IsModel m => valid_status (Model_focused m)
  | IsForm m => valid_status (Form_focused m)
  end.

Definition focus_ok (p : Program) : Prop :=
  tea_focus_ok (Program_model p)
  /\ tea_focus_ok (models_model (Program_world p))
  /\ tea_focus_ok (models_form (Program_world p)).

(** Exactly one of the two fields of a form is focused. *)
Definition one_focused (m : Form) : Prop :=
  xorb (textinput_Focused (Form_title m))
       (textarea_Focused (Form_description m)) = true.

Definition tea_one_focused (a : tea_Model) : Prop :=
  match a with
  | IsModel _ => True
  | IsForm m => one_focused m
  end.

Definition forms_ok (p : Program) : Prop :=
  tea_one_focused (Program_model p)
  /\ tea_one_focused (models_model (Program_world p))
  /\ tea_one_focused (models_form (Program_world p)).

(** A board that is not loaded yet means that no columns were allocated. *)
Definition unloaded_means_no_columns (h : Heap) (a : tea_Model) : Prop :=
  match a with
  | IsModel m => Model_loaded m = false -> h = []
  | IsForm _ => True
  end.

(** [initLists] ran at most once: at most one array is allocated, and the
    board that is active, or saved while a form is active, is loaded as soon
    as there is one. *)
Definition initialised_once (p : Program) : Prop :=
  (length (heap (Program_world p)) <= 1)%nat
  /\ (exists m, models_model (Program_world p) = IsModel m)
  /\ match Program_model p with
     | IsModel m => Model_loaded m = false -> heap (Program_world p) = []
     | IsForm _ =>
         unloaded_means_no_columns (heap (Program_world p))
                                   (models_model (Program_world p))
     end.

(** What the properties below ask of the external widgets. *)
Definition keeps_items
  (list_Update : Msg -> list_Model -> list_Model * widget_Cmd) : Prop :=
  forall msg l, list_Items (fst (list_Update msg l)) = list_Items l.

Definition ignores_resize
  (list_Update : Msg -> list_Model -> list_Model * widget_Cmd) : Prop :=
  forall W H l, fst (list_Update (WindowSizeMsg W H) l) = l.

Definition title_keeps_focus
  (textinput_Update : Msg -> textinput_Model -> textinput_Model * widget_Cmd) : Prop :=
  forall msg t,
    textinput_Focused (fst (textinput_Update msg t)) = textinput_Focused t.

Definition description_keeps_focus
  (textarea_Update : Msg -> textarea_Model -> textarea_Model * widget_Cmd) : Prop :=
  forall msg t,
    textarea_Focused (fst (textarea_Update msg t)) = textarea_Focused t.

(** ** Rendering

    What the two [View] methods hand to the external packages is taken as
    given: the columns' and the fields' own [View], the [Render] of the two
    package-level styles (as they are when [View] runs), and
    [lipgloss.JoinHorizontal] and [lipgloss.JoinVertical] at position
    [lipgloss.Left]. *)

Section View.

Variable list_View : list_Model -> string.
Variable textinput_View : textinput_Model -> string.
Variable textarea_View : textarea_Model -> string.
Variable columnStyle_Render : string -> string.
Variable focusedStyle_Render : string -> string.
Variable JoinHorizontal : list string -> string.
Variable JoinVertical : list string -> string.

(** [func (m Model) View() string]; the three columns are read before the
    switch on the focus, and an index out of range panics. *)
Definition Model_View (m : Model) (h : Heap) : option string :=
  if Model_quitting m then Some ""
  else if Model_loaded m then
    todoCol ← slice_get h (Model_lists m) todo;
    let todoView := list_View todoCol in
    inProgCol ← slice_get h (Model_lists m) inProgress;
    let inProgView := list_View inProgCol in
    doneCol ← slice_get h (Model_lists m) done;
    let doneView := list_View doneCol in
    if Model_focused m =? inProgress then
      Some (JoinHorizontal [ columnStyle_Render todoView;
                             focusedStyle_Render inProgView;
                             columnStyle_Render doneView ])
    else if Model_focused m =? done then
      Some (JoinHorizontal [ columnStyle_Render todoView;
                             columnStyle_Render inProgView;
                             focusedStyle_Render doneView ])
    else
      Some (JoinHorizontal [ focusedStyle_Render todoView;
                             columnStyle_Render inProgView;
                             columnStyle_Render doneView ])
  else Some "loading...".

(** [func (m Form) View() string] *)
Definition Form_View (m : Form) : string :=
  JoinVertical [ textinput_View (Form_title m);
                 textarea_View (Form_description m) ].

(** Dynamic dispatch of [View] on a [tea.Model]. *)
Definition tea_View (a : tea_Model) (h : Heap) : option string :=
  match a with
  | IsModel m => Model_View m h
  | IsForm m => Some (Form_View m)
  end.

End View.

(** ** Predicates of the further properties *)

(** No column of the heap holds a task. *)
Definition columns_empty (h : Heap) : Prop :=
  Forall (Forall (fun col => list_Items col = [])) h.

(** A board and the heap fit: a loaded board refers to the one array of the
    heap, which has three columns; a board that is not loaded has the nil
    slice and nothing is allocated. *)
Definition board_shape (h : Heap) (m : Model) : Prop :=
  (Model_loaded m = true /\ Model_lists m = Some 0%nat
   /\ length <$> h = [3%nat])
  \/ (Model_loaded m = false /\ Model_lists m = None /\ h = []).

(** The active board fits the heap; while a form is active the registry
    holds a board that fits the heap and whose focus is the form's target
    status. *)
Definition shape_ok (p : Program) : Prop :=
  match Program_model p with
  | IsModel m => board_shape (heap (Program_world p)) m
  | IsForm f =>
      exists m, models_model (Program_world p) = IsModel m
                /\ board_shape (heap (Program_world p)) m
                /\ Form_focused f = Model_focused m
  end.

(** Loading is behind: the active board is loaded, or a form is active over
    a saved board that is loaded. *)
Definition past_loading (p : Program) : Prop :=
  match Program_model p with
  | IsModel m => Model_loaded m = true
  | IsForm _ =>
      exists m, models_model (Program_world p) = IsModel m
                /\ Model_loaded m = true
  end.

(** Every column of the heap has the size [initLists] computes from a
    window of width [W] and height [H]. *)
Definition columns_sized (W H : Z) (h : Heap) : Prop :=
  Forall (Forall (fun col => list_width col = W ÷ divisor
                             /\ list_height col = H ÷ 2)) h.

(** The list widget's own [Update] does not resize the column. *)
Definition keeps_size
  (list_Update : Msg -> list_Model -> list_Model * widget_Cmd) : Prop :=
  forall msg l,
    list_width (fst (list_Update msg l)) = list_width l
    /\ list_height (fst (list_Update msg l)) = list_height l.

(** No board of the program, active or saved, is quitting. *)
Definition tea_not_quitting (a : tea_Model) : Prop :=
  match a with
  | IsModel m => Model_quitting m = false
  | IsForm _ => True
  end.

Definition not_quitting (p : Program) : Prop :=
  tea_not_quitting (Program_model p)
  /\ tea_not_quitting (models_model (Program_world p)).

(** * Properties *)

(** ** Integers and status values *)

Lemma int_wrap_small z : - 2 ^ 63 <= z < 2 ^ 63 -> int_wrap z = z.
Proof.
  intros Hz. unfold int_wrap.
  rewrite Z.mod_small; lia.
Qed.

Lemma valid_statusb_spec s : valid_statusb s = true <-> valid_status s.
Proof.
  unfold valid_statusb, valid_status, todo, inProgress, done.
  rewrite !orb_true_iff, !Z.eqb_eq. tauto.
Qed.

Lemma valid_status_range s : valid_status s <-> 0 <= s < 3.
Proof. unfold valid_status, todo, inProgress, done. lia. Qed.

(** ** Properties of [Task] *)

Lemma Task_Next_status t :
  valid_status (Task_status t) ->
  Task_status (Task_Next t) = (Task_status t + 1) mod 3.
Proof.
  intros [H | [H | H]]; unfold Task_Next; rewrite H; reflexivity.
Qed.

Lemma Task_Next_valid t :
  valid_status (Task_status t) -> valid_status (Task_status (Task_Next t)).
Proof.
  intros [H | [H | H]]; unfold Task_Next, valid_status; rewrite H; cbn; auto.
Qed.

(** C5. Advancing a task three times returns its status (indeed the whole
    task) to where it started, for each of the three status values, and one
    step follows the order Todo, InProgress, Done, Todo. *)
Theorem Task_Next_three_cycle (t : Task) :
  valid_status (Task_status t) ->
  Task_Next (Task_Next (Task_Next t)) = t
  /\ Task_status (Task_Next (Task_Next (Task_Next t))) = Task_status t
  /\ (forall ti de, Task_Next (NewTask todo ti de) = NewTask inProgress ti de)
  /\ (forall ti de, Task_Next (NewTask inProgress ti de) = NewTask done ti de)
  /\ (forall ti de, Task_Next (NewTask done ti de) = NewTask todo ti de).
Proof.
  intros Hv. destruct t as [s ti de]. cbn in Hv.
  split; [ | split; [ | repeat split ] ].
  - destruct Hv as [-> | [-> | ->]]; reflexivity.
  - destruct Hv as [-> | [-> | ->]]; reflexivity.
Qed.

Lemma Task_Next_three_cycle_witness :
  valid_status (Task_status (NewTask inProgress "a" "b"))
  /\ Task_Next (Task_Next (Task_Next (NewTask inProgress "a" "b")))
     = NewTask inProgress "a" "b".
Proof.
  split.
  - right; left; reflexivity.
  - apply (Task_Next_three_cycle (NewTask inProgress "a" "b")).
    right; left; reflexivity.
Defined.

(** ** Slices and the heap *)

Lemma slice_get_inv h s i col :
  slice_get h s i = Some col ->
  exists a arr, s = Some a /\ h !! a = Some arr /\ 0 <= i
                /\ arr !! Z.to_nat i = Some col.
Proof.
  unfold slice_get. intros H.
  destruct s as [a|]; simpl in H; [ | discriminate ].
  destruct (h !! a) as [arr|] eqn:Ha; simpl in H; [ | discriminate ].
  destruct (0 <=? i) eqn:Hi; [ | discriminate ].
  exists a, arr. repeat split; auto. lia.
Qed.

Lemma slice_set_after_get h s i col v :
  slice_get h s i = Some col ->
  exists a arr, s = Some a /\ h !! a = Some arr
                /\ slice_set h s i v = Some (<[a := <[Z.to_nat i := v]> arr]> h).
Proof.
  intros H. destruct (slice_get_inv _ _ _ _ H) as (a & arr & -> & Ha & Hi & Hc).
  exists a, arr. repeat split; auto.
  unfold slice_set. simpl. rewrite Ha. simpl.
  apply lookup_lt_Some in Hc.
  replace ((0 <=? i) && (i <? Z.of_nat (length arr))) with true; [ reflexivity | ].
  symmetry. apply andb_true_iff. split; [ apply Z.leb_le | apply Z.ltb_lt ]; lia.
Qed.

Lemma slice_get_write_eq h a arr i v :
  h !! a = Some arr -> 0 <= i -> (Z.to_nat i < length arr)%nat ->
  slice_get (<[a := <[Z.to_nat i := v]> arr]> h) (Some a) i = Some v.
Proof.
  intros Ha Hi Hlt. unfold slice_get. simpl.
  rewrite list_lookup_insert_eq by (eapply lookup_lt_Some; eauto). simpl.
  replace (0 <=? i) with true by (symmetry; apply Z.leb_le; lia).
  apply list_lookup_insert_eq. exact Hlt.
Qed.

Lemma slice_get_write_ne h a arr i v s j :
  h !! a = Some arr -> 0 <= i ->
  s <> Some a \/ j <> i ->
  slice_get (<[a := <[Z.to_nat i := v]> arr]> h) s j = slice_get h s j.
Proof.
  intros Ha Hi Hne. unfold slice_get.
  destruct s as [b|]; simpl; [ | reflexivity ].
  destruct (decide (b = a)) as [-> | Hb].
  - rewrite list_lookup_insert_eq by (eapply lookup_lt_Some; eauto).
    rewrite Ha. simpl.
    destruct (0 <=? j) eqn:Hj; [ | reflexivity ].
    apply Z.leb_le in Hj.
    apply list_lookup_insert_ne.
    destruct Hne as [Hne | Hne]; [ congruence | lia ].
  - rewrite list_lookup_insert_ne by congruence. reflexivity.
Qed.

Lemma heap_write_id (h : Heap) a arr i (col : list_Model) :
  h !! a = Some arr -> arr !! i = Some col ->
  <[a := <[i := col]> arr]> h = h.
Proof.
  intros Ha Hc. rewrite (list_insert_id arr i col Hc).
  apply list_insert_id. exact Ha.
Qed.

(** ** The column *)

Lemma list_SelectedItem_Some l t :
  list_SelectedItem l = Some t ->
  0 <= list_Index l < Z.of_nat (length (list_Items l))
  /\ list_Items l !! Z.to_nat (list_Index l) = Some t.
Proof.
  unfold list_SelectedItem, list_Items.
  destruct ((0 <=? list_Index l) && (list_Index l <? Z.of_nat (length (list_items l)))) eqn:E;
    [ | discriminate ].
  apply andb_true_iff in E. destruct E as [E1 E2].
  apply Z.leb_le in E1. apply Z.ltb_lt in E2. auto.
Qed.

Lemma list_SelectedItem_empty l :
  list_Items l = [] -> list_SelectedItem l = None.
Proof.
  unfold list_SelectedItem, list_Items. intros ->.
  destruct ((0 <=? list_Index l) && (list_Index l <? Z.of_nat (length (@nil Item))));
    [ apply lookup_nil | reflexivity ].
Qed.

Lemma list_RemoveItem_selected l t :
  list_SelectedItem l = Some t ->
  list_Items (list_RemoveItem (list_Index l) l)
  = delete (Z.to_nat (list_Index l)) (list_Items l)
  /\ (length (list_Items (list_RemoveItem (list_Index l) l)) + 1
      = length (list_Items l))%nat.
Proof.
  intros H. apply list_SelectedItem_Some in H. destruct H as [[H0 H1] Ht].
  unfold list_RemoveItem, list_Items in *.
  replace ((0 <=? list_Index l) && (list_Index l <? Z.of_nat (length (list_items l))))
    with true
    by (symmetry; apply andb_true_iff; split; [ apply Z.leb_le | apply Z.ltb_lt ]; lia).
  simpl. split; [ reflexivity | ].
  rewrite length_delete by eauto. apply lookup_lt_Some in Ht. lia.
Qed.

(** ** The board operations *)

(** What a present selection makes [DeleteTask] do. *)
Lemma DeleteTask_selected m h col t :
  slice_get h (Model_lists m) (Model_focused m) = Some col ->
  list_SelectedItem col = Some t ->
  exists a arr,
    Model_lists m = Some a /\ h !! a = Some arr /\ 0 <= Model_focused m
    /\ arr !! Z.to_nat (Model_focused m) = Some col
    /\ DeleteTask m h
       = Some (m, <[a := <[Z.to_nat (Model_focused m)
                            := list_RemoveItem (list_Index col) col]> arr]> h).
Proof.
  intros Hcol Hsel.
  destruct (slice_get_inv _ _ _ _ Hcol) as (a & arr & Hs & Ha & Hi & Hc).
  destruct (slice_set_after_get _ _ _ _ (list_RemoveItem (list_Index col) col) Hcol)
    as (a' & arr' & Hs' & Ha' & Hset).
  assert (a' = a) by congruence. subst a'.
  assert (arr' = arr) by congruence. subst arr'.
  exists a, arr. repeat split; auto.
  unfold DeleteTask. rewrite Hcol. simpl. rewrite Hsel, Hset. reflexivity.
Qed.

Lemma DeleteTask_unselected m h col :
  slice_get h (Model_lists m) (Model_focused m) = Some col ->
  list_SelectedItem col = None ->
  DeleteTask m h = Some (m, h).
Proof.
  intros Hcol Hsel. unfold DeleteTask. rewrite Hcol. simpl. rewrite Hsel. reflexivity.
Qed.

(** What a present selection makes [MoveToNext] do: the heap it leaves is the
    one [DeleteTask] leaves. *)
Lemma MoveToNext_selected m h col t :
  slice_get h (Model_lists m) (Model_focused m) = Some col ->
  list_SelectedItem col = Some t ->
  is_Some (slice_get h (Model_lists m) (Task_status (Task_Next t))) ->
  exists a arr,
    Model_lists m = Some a /\ h !! a = Some arr /\ 0 <= Model_focused m
    /\ arr !! Z.to_nat (Model_focused m) = Some col
    /\ MoveToNext m h
       = Some (set_focused (Task_status (Task_Next t)) m,
               <[a := <[Z.to_nat (Model_focused m)
                        := list_RemoveItem (list_Index col) col]> arr]> h).
Proof.
  intros Hcol Hsel [tgt Htgt].
  destruct (slice_get_inv _ _ _ _ Hcol) as (a & arr & Hs & Ha & Hi & Hc).
  destruct (slice_set_after_get _ _ _ _ (list_RemoveItem (list_Index col) col) Hcol)
    as (a' & arr' & Hs' & Ha' & Hset).
  assert (a' = a) by congruence. subst a'.
  assert (arr' = arr) by congruence. subst arr'.
  exists a, arr. repeat split; auto.
  unfold MoveToNext. rewrite Hcol. simpl. rewrite Hsel, Hset. simpl.
  set (h1 := <[a := _]> h).
  assert (Hafter : is_Some (slice_get h1 (Model_lists m) (Task_status (Task_Next t)))).
  { destruct (decide (Task_status (Task_Next t) = Model_focused m)) as [-> | Hne].
    - rewrite Hs. unfold h1. rewrite slice_get_write_eq; eauto.
      eapply lookup_lt_Some; eauto.
    - unfold h1. rewrite slice_get_write_ne; eauto. }
  destruct Hafter as [tgt1 ->]. reflexivity.
Qed.

Lemma MoveToNext_unselected m h col :
  slice_get h (Model_lists m) (Model_focused m) = Some col ->
  list_SelectedItem col = None ->
  MoveToNext m h = Some (m, h).
Proof.
  intros Hcol Hsel. unfold MoveToNext. rewrite Hcol. simpl. rewrite Hsel. reflexivity.
Qed.







(** C1. What [MoveToNext] does when the focused column has a selected task
    and a column for the task's new status exists: it returns normally, the
    focus becomes the task's new status and the focused column loses exactly
    that task; but every other column, the target column included, is left as
    it was, so the task is in no column afterwards. *)
Theorem MoveToNext_drops_selected_task (m : Model) (h : Heap) (col : list_Model) (t : Task) :
  slice_get h (Model_lists m) (Model_focused m) = Some col ->
  list_SelectedItem col = Some t ->
  is_Some (slice_get h (Model_lists m) (Task_status (Task_Next t))) ->
  exists m' h' col',
    MoveToNext m h = Some (m', h')
    /\ Model_focused m' = Task_status (Task_Next t)
    /\ slice_get h' (Model_lists m) (Model_focused m) = Some col'
    /\ list_Items col' = delete (Z.to_nat (list_Index col)) (list_Items col)
    /\ (length (list_Items col') + 1 = length (list_Items col))%nat
    /\ (forall j, j <> Model_focused m ->
        slice_get h' (Model_lists m) j = slice_get h (Model_lists m) j)
    /\ (Task_status (Task_Next t) <> Model_focused m ->
        column_length h' m' (Task_status (Task_Next t))
        = column_length h m (Task_status (Task_Next t))).
Proof.
  intros Hcol Hsel Htgt.
  destruct (MoveToNext_selected m h col t Hcol Hsel Htgt)
    as (a & arr & Hs & Ha & Hi & Hc & Hmove).
  destruct (list_RemoveItem_selected col t Hsel) as [Hitems Hlen].
  eexists _, _, (list_RemoveItem (list_Index col) col).
  split; [ exact Hmove | ]. split; [ reflexivity | ].
  assert (Hframe : forall j, j <> Model_focused m ->
            slice_get (<[a := <[Z.to_nat (Model_focused m)
                                 := list_RemoveItem (list_Index col) col]> arr]> h)
                      (Model_lists m) j
            = slice_get h (Model_lists m) j).
  { intros j Hj. apply slice_get_write_ne; auto. }
  split; [ | split; [ exact Hitems | split; [ exact Hlen | split; [ exact Hframe | ] ] ] ].
  - rewrite Hs. apply slice_get_write_eq; auto. eapply lookup_lt_Some; eauto.
  - intros Hne. unfold column_length. simpl. rewrite (Hframe _ Hne). reflexivity.
Qed.

Lemma MoveToNext_drops_selected_task_witness :
  list_SelectedItem
    (list_InsertItem 0 sample_task
       (list_set_Title "To Do" (list_SetShowHelp false (list_New [] 20 12))))
  = Some sample_task
  /\ exists m' h',
       MoveToNext (sample_board todo) one_task_heap = Some (m', h')
       /\ Model_focused m' = inProgress
       /\ column_length h' m' inProgress
          = column_length one_task_heap (sample_board todo) inProgress.
Proof.
  split; [ reflexivity | ].
  destruct (MoveToNext_drops_selected_task (sample_board todo) one_task_heap
              _ sample_task eq_refl eq_refl)
    as (m' & h' & col' & Hmove & Hfocus & _ & _ & _ & _ & Htarget).
  - eexists. reflexivity.
  - exists m', h'. split; [ exact Hmove | ]. split; [ exact Hfocus | ].
    apply Htarget. discriminate.
Defined.

(** The same on the board whose To Do column holds the one task "Write
    spec": afterwards the focus is In Progress and all three columns are
    empty. *)
Example MoveToNext_on_one_task_board :
  MoveToNext (sample_board todo) one_task_heap
  = Some (sample_board inProgress, empty_heap)
  /\ column_length one_task_heap (sample_board todo) todo = Some 1%nat
  /\ column_length empty_heap (sample_board inProgress) todo = Some 0%nat
  /\ column_length empty_heap (sample_board inProgress) inProgress = Some 0%nat
  /\ column_length empty_heap (sample_board inProgress) done = Some 0%nat.
Proof. repeat split; reflexivity. Qed.

(** ** The two [Update] functions, case by case *)

Section Cases.

Variable list_Update : Msg -> list_Model -> list_Model * widget_Cmd.
Variable textinput_Update : Msg -> textinput_Model -> textinput_Model * widget_Cmd.
Variable textarea_Update : Msg -> textarea_Model -> textarea_Model * widget_Cmd.

Local Abbreviation form_delegate := (Form_delegate textinput_Update textarea_Update).
Local Abbreviation form_update := (Form_Update textinput_Update textarea_Update).
Local Abbreviation model_delegate := (Model_delegate list_Update).
Local Abbreviation model_update :=
  (Model_Update list_Update textinput_Update textarea_Update).

Lemma Form_Update_quit m w :
  form_update (KeyMsg "ctrl+c") m w = (IsForm m, tea_Quit, w).
Proof. reflexivity. Qed.

Lemma Form_Update_first_confirm m w :
  textinput_Focused (Form_title m) = true ->
  form_update (KeyMsg "enter") m w
  = (IsForm (set_description (textarea_Focus (Form_description m))
               (set_title (textinput_Blur (Form_title m)) m)),
     textarea_Blink, w).
Proof. intros H. unfold Form_Update. simpl. rewrite H. reflexivity. Qed.

Lemma Form_Update_second_confirm m w :
  textinput_Focused (Form_title m) = false ->
  form_update (KeyMsg "enter") m w
  = (models_model w, bound_CreateTask m,
     {| heap := heap w; models_model := models_model w; models_form := IsForm m |}).
Proof. intros H. unfold Form_Update. simpl. rewrite H. reflexivity. Qed.

Lemma Form_Update_other msg m w :
  msg <> KeyMsg "ctrl+c" -> msg <> KeyMsg "enter" ->
  form_update msg m w
  = (IsForm (fst (form_delegate msg m)), snd (form_delegate msg m), w).
Proof.
  intros H1 H2. unfold Form_Update.
  destruct (Form_delegate textinput_Update textarea_Update msg m) as [m1 cmd]. simpl.
  destruct msg as [ | | s | | ]; try reflexivity.
  destruct (String.eqb s "ctrl+c") eqn:E1.
  { apply String.eqb_eq in E1. subst s. contradiction. }
  destruct (String.eqb s "enter") eqn:E2.
  { apply String.eqb_eq in E2. subst s. contradiction. }
  reflexivity.
Qed.

(** Every return of [Form.Update] is one of the four above. *)
Lemma Form_Update_cases msg m w :
  (msg = KeyMsg "ctrl+c" /\ form_update msg m w = (IsForm m, tea_Quit, w))
  \/ (msg = KeyMsg "enter" /\ textinput_Focused (Form_title m) = true
      /\ form_update msg m w
         = (IsForm (set_description (textarea_Focus (Form_description m))
                      (set_title (textinput_Blur (Form_title m)) m)),
            textarea_Blink, w))
  \/ (msg = KeyMsg "enter" /\ textinput_Focused (Form_title m) = false
      /\ form_update msg m w
         = (models_model w, bound_CreateTask m,
            {| heap := heap w; models_model := models_model w;
               models_form := IsForm m |}))
  \/ (msg <> KeyMsg "ctrl+c" /\ msg <> KeyMsg "enter"
      /\ form_update msg m w
         = (IsForm (fst (form_delegate msg m)), snd (form_delegate msg m), w)).
Proof.
  destruct msg as [ | W H | s | t | tag ];
    try (right; right; right; split; [ discriminate | ];
         split; [ discriminate | ]; apply Form_Update_other; discriminate).
  destruct (String.eqb_spec s "ctrl+c") as [-> | H1].
  { left. split; [ reflexivity | apply Form_Update_quit ]. }
  destruct (String.eqb_spec s "enter") as [-> | H2].
  { destruct (textinput_Focused (Form_title m)) eqn:Hf.
    - right; left. auto using Form_Update_first_confirm.
    - right; right; left. auto using Form_Update_second_confirm. }
  assert (KeyMsg s <> KeyMsg "ctrl+c") by congruence.
  assert (KeyMsg s <> KeyMsg "enter") by congruence.
  right; right; right. auto using Form_Update_other.
Qed.

Lemma Model_delegate_inv msg m w r :
  model_delegate msg m w = Some r ->
  exists col h1,
    slice_get (heap w) (Model_lists m) (Model_focused m) = Some col
    /\ slice_set (heap w) (Model_lists m) (Model_focused m)
                 (fst (list_Update msg col)) = Some h1
    /\ r = (IsModel m, from_widget (snd (list_Update msg col)), set_heap h1 w).
Proof.
  unfold Model_delegate. intros H.
  destruct (slice_get (heap w) (Model_lists m) (Model_focused m)) as [col|] eqn:Hcol;
    simpl in H; [ | discriminate ].
  destruct (list_Update msg col) as [col1 cmd] eqn:Hu. simpl.
  destruct (slice_set (heap w) (Model_lists m) (Model_focused m) col1) as [h1|] eqn:Hset;
    simpl in H; [ | discriminate ].
  injection H as <-. exists col, h1. rewrite Hu. auto.
Qed.

Lemma Model_delegate_Some msg m w col :
  slice_get (heap w) (Model_lists m) (Model_focused m) = Some col ->
  exists h1,
    slice_set (heap w) (Model_lists m) (Model_focused m)
              (fst (list_Update msg col)) = Some h1
    /\ model_delegate msg m w
       = Some (IsModel m, from_widget (snd (list_Update msg col)), set_heap h1 w).
Proof.
  intros Hcol.
  destruct (slice_set_after_get _ _ _ _ (fst (list_Update msg col)) Hcol)
    as (a & arr & Hs & Ha & Hset).
  eexists. split; [ exact Hset | ].
  unfold Model_delegate. rewrite Hcol. simpl.
  destruct (list_Update msg col) as [col1 cmd]. simpl in *.
  rewrite Hset. reflexivity.
Qed.

(** Every normal return of [Model.Update] is one of these. *)
Lemma Model_Update_cases msg m w r :
  model_update msg m w = Some r ->
  (msg = KeyMsg "ctrl+c"
   /\ r = (IsModel {| Model_loaded := Model_loaded m;
                      Model_focused := Model_focused m;
                      Model_lists := Model_lists m;
                      Model_quitting := true |}, tea_Quit, w))
  \/ (msg = KeyMsg "enter" /\ r = (IsModel m, bound_MoveToNext m, w))
  \/ (msg = KeyMsg "d" /\ r = (IsModel m, bound_DeleteTask m, w))
  \/ (msg = KeyMsg "n"
      /\ r = form_update NilMsg (NewForm (Model_focused m))
               {| heap := heap w; models_model := IsModel m;
                  models_form := IsForm (NewForm (Model_focused m)) |})
  \/ ((msg = KeyMsg "left" \/ msg = KeyMsg "h")
      /\ model_delegate msg (Model_Prev m) w = Some r)
  \/ ((msg = KeyMsg "right" \/ msg = KeyMsg "l")
      /\ model_delegate msg (Model_Next m) w = Some r)
  \/ (exists W H,
        msg = WindowSizeMsg W H /\ Model_loaded m = false
        /\ model_delegate msg
             {| Model_loaded := true; Model_focused := Model_focused m;
                Model_lists := Some (length (heap w));
                Model_quitting := Model_quitting m |}
             (set_heap (snd (initLists W H m (heap w))) w) = Some r)
  \/ model_delegate msg m w = Some r.
Proof.
  intros H. destruct msg as [ | W Hh | s | t | tag ]; simpl in H;
    try (do 7 right; exact H).
  - destruct (Model_loaded m) eqn:Hl; simpl in H.
    + do 7 right. exact H.
    + do 6 right; left. exists W, Hh. auto.
  - destruct (String.eqb_spec s "ctrl+c") as [-> | _].
    { left. injection H as <-. auto. }
    destruct (String.eqb_spec s "left") as [-> | _].
    { do 4 right; left. auto. }
    destruct (String.eqb_spec s "h") as [-> | _].
    { do 4 right; left. auto. }
    destruct (String.eqb_spec s "right") as [-> | _].
    { do 5 right; left. auto. }
    destruct (String.eqb_spec s "l") as [-> | _].
    { do 5 right; left. auto. }
    destruct (String.eqb_spec s "enter") as [-> | _].
    { right; left. injection H as <-. auto. }
    destruct (String.eqb_spec s "d") as [-> | _].
    { right; right; left. injection H as <-. auto. }
    destruct (String.eqb_spec s "n") as [-> | _].
    { do 3 right; left. injection H as <-. auto. }
    do 7 right. exact H.
Qed.

End Cases.

(** ** Selections after a removal *)

Lemma slice_set_inv h s i v h' :
  slice_set h s i v = Some h' ->
  exists a arr, s = Some a /\ h !! a = Some arr
                /\ 0 <= i < Z.of_nat (length arr)
                /\ h' = <[a := <[Z.to_nat i := v]> arr]> h.
Proof.
  unfold slice_set. intros H.
  destruct s as [a|]; simpl in H; [ | discriminate ].
  destruct (h !! a) as [arr|] eqn:Ha; simpl in H; [ | discriminate ].
  destruct ((0 <=? i) && (i <? Z.of_nat (length arr))) eqn:E; [ | discriminate ].
  apply andb_true_iff in E. destruct E as [E1 E2].
  apply Z.leb_le in E1. apply Z.ltb_lt in E2.
  injection H as <-. exists a, arr. auto.
Qed.

Lemma selection_ok_empty l : list_Items l = [] -> selection_ok l.
Proof. intros H. left. auto using list_SelectedItem_empty. Qed.

(** ** Runs of the program *)

Section Runs.

Variable list_Update : Msg -> list_Model -> list_Model * widget_Cmd.
Variable textinput_Update : Msg -> textinput_Model -> textinput_Model * widget_Cmd.
Variable textarea_Update : Msg -> textarea_Model -> textarea_Model * widget_Cmd.

Local Abbreviation form_delegate := (Form_delegate textinput_Update textarea_Update).
Local Abbreviation form_update := (Form_Update textinput_Update textarea_Update).
Local Abbreviation model_delegate := (Model_delegate list_Update).
Local Abbreviation model_update :=
  (Model_Update list_Update textinput_Update textarea_Update).
Local Abbreviation tea_update :=
  (tea_Update list_Update textinput_Update textarea_Update).
Local Abbreviation step_ := (step list_Update textinput_Update textarea_Update).
Local Abbreviation run_ := (run list_Update textinput_Update textarea_Update).

Lemma step_inv msg p p' out :
  step_ msg p = Some (p', out) ->
  exists a c w h,
    tea_update msg (Program_model p) (Program_world p) = Some (a, c, w)
    /\ call_Cmd c (heap w) = Some (out, h)
    /\ p' = {| Program_world := set_heap h w; Program_model := a |}.
Proof.
  unfold step. intros H.
  destruct (tea_update msg (Program_model p) (Program_world p)) as [[[a c] w]|];
    simpl in H; [ | discriminate ].
  destruct (call_Cmd c (heap w)) as [[out1 h]|] eqn:Hc; simpl in H; [ | discriminate ].
  injection H as <- <-. exists a, c, w, h. auto.
Qed.

(** A property that every step keeps holds after every run. *)
Lemma run_invariant (P : Program -> Prop) :
  (forall msg p p' out, P p -> step_ msg p = Some (p', out) -> P p') ->
  forall msgs p p', P p -> run_ msgs p = Some p' -> P p'.
Proof.
  intros Hstep msgs. induction msgs as [ | msg rest IH ]; intros p p' HP Hrun.
  - injection Hrun as <-. exact HP.
  - simpl in Hrun.
    destruct (step_ msg p) as [[p1 out]|] eqn:E; simpl in Hrun; [ | discriminate ].
    eapply IH; [ | exact Hrun ]. eapply Hstep; eauto.
Qed.

Lemma Form_Update_heap msg m w :
  heap (snd (form_update msg m w)) = heap w.
Proof.
  destruct (Form_Update_cases textinput_Update textarea_Update msg m w)
    as [(_ & ->) | [(_ & _ & ->) | [(_ & _ & ->) | (_ & _ & ->)]]]; reflexivity.
Qed.

End Runs.

(** The sample widgets meet what is asked of the external ones. *)

Lemma sample_list_Update_keeps_items : keeps_items sample_list_Update.
Proof.
  intros msg l. destruct msg as [ | W H | s | t | tag ]; try reflexivity.
  simpl. destruct (String.eqb s "down" || String.eqb s "j"); [ reflexivity | ].
  destruct (String.eqb s "up" || String.eqb s "k"); reflexivity.
Qed.

Lemma sample_list_Update_ignores_resize : ignores_resize sample_list_Update.
Proof. intros W H l. reflexivity. Qed.

Lemma sample_textinput_Update_keeps_focus : title_keeps_focus sample_textinput_Update.
Proof.
  intros msg t. destruct msg as [ | W H | s | t' | tag ]; try reflexivity.
  simpl. destruct (textinput_focus t) eqn:E; simpl; auto.
Qed.

Lemma sample_textarea_Update_keeps_focus :
  description_keeps_focus sample_textarea_Update.
Proof.
  intros msg t. destruct msg as [ | W H | s | t' | tag ]; try reflexivity.
  simpl. destruct (textarea_focus t) eqn:E; simpl; auto.
Qed.





(** ** Focus *)

Lemma Model_Next_focused m :
  valid_status (Model_focused m) ->
  Model_focused (Model_Next m) = (Model_focused m + 1) mod 3.
Proof.
  intros [H | [H | H]]; unfold Model_Next; rewrite H; reflexivity.
Qed.

Lemma Model_Prev_focused m :
  valid_status (Model_focused m) ->
  Model_focused (Model_Prev m) = (Model_focused m - 1) mod 3.
Proof.
  intros [H | [H | H]]; unfold Model_Prev; rewrite H; reflexivity.
Qed.

Lemma Model_Next_valid m :
  valid_status (Model_focused m) -> valid_status (Model_focused (Model_Next m)).
Proof.
  intros H. rewrite Model_Next_focused by exact H.
  apply valid_status_range. apply Z.mod_pos_bound. lia.
Qed.

Lemma Model_Prev_valid m :
  valid_status (Model_focused m) -> valid_status (Model_focused (Model_Prev m)).
Proof.
  intros H. rewrite Model_Prev_focused by exact H.
  apply valid_status_range. apply Z.mod_pos_bound. lia.
Qed.

Section Focus.

Variable list_Update : Msg -> list_Model -> list_Model * widget_Cmd.
Variable textinput_Update : Msg -> textinput_Model -> textinput_Model * widget_Cmd.
Variable textarea_Update : Msg -> textarea_Model -> textarea_Model * widget_Cmd.

Lemma Form_delegate_focused msg m :
  Form_focused (fst (Form_delegate textinput_Update textarea_Update msg m))
  = Form_focused m.
Proof.
  unfold Form_delegate.
  destruct (textinput_Focused (Form_title m)).
  - destruct (textinput_Update msg (Form_title m)); reflexivity.
  - destruct (textarea_Update msg (Form_description m)); reflexivity.
Qed.

Lemma focus_ok_Form_Update msg m w a c w' :
  tea_focus_ok (IsForm m) ->
  tea_focus_ok (models_model w) -> tea_focus_ok (models_form w) ->
  Form_Update textinput_Update textarea_Update msg m w = (a, c, w') ->
  tea_focus_ok a /\ tea_focus_ok (models_model w') /\ tea_focus_ok (models_form w').
Proof.
  intros Hm Hwm Hwf H.
  destruct (Form_Update_cases textinput_Update textarea_Update msg m w)
    as [(_ & E) | [(_ & _ & E) | [(_ & _ & E) | (_ & _ & E)]]];
    rewrite E in H; injection H as <- <- <-; simpl; auto.
  rewrite Form_delegate_focused. auto.
Qed.

Lemma focus_ok_step msg p p' out :
  focus_ok p ->
  step list_Update textinput_Update textarea_Update msg p = Some (p', out) ->
  focus_ok p'.
Proof.
  intros (Ha & Hwm & Hwf) Hstep.
  destruct (step_inv _ _ _ _ _ _ _ Hstep) as (a & c & w & h & Hup & Hcall & ->).
  unfold focus_ok. simpl. clear Hstep Hcall.
  destruct (Program_model p) as [m | m]; simpl in Hup, Ha.
  - destruct (Model_Update_cases _ _ _ _ _ _ _ Hup)
      as [(_ & E) | [(_ & E) | [(_ & E) | [(_ & E) | [(_ & E) | [(_ & E) |
          [(W & H & _ & _ & E) | E]]]]]]].
    + injection E as -> _ ->. simpl. auto.
    + injection E as -> _ ->. simpl. auto.
    + injection E as -> _ ->. simpl. auto.
    + symmetry in E. eapply focus_ok_Form_Update; [ | | | exact E ]; simpl; auto.
    + destruct (Model_delegate_inv _ _ _ _ _ E) as (col & h1 & _ & _ & Er).
      injection Er as -> _ ->. simpl. auto using Model_Prev_valid.
    + destruct (Model_delegate_inv _ _ _ _ _ E) as (col & h1 & _ & _ & Er).
      injection Er as -> _ ->. simpl. auto using Model_Next_valid.
    + destruct (Model_delegate_inv _ _ _ _ _ E) as (col & h1 & _ & _ & Er).
      injection Er as -> _ ->. simpl. auto.
    + destruct (Model_delegate_inv _ _ _ _ _ E) as (col & h1 & _ & _ & Er).
      injection Er as -> _ ->. simpl. auto.
  - injection Hup as Hup. eapply focus_ok_Form_Update; eauto.
Qed.

End Focus.

Lemma focus_ok_main : focus_ok main.
Proof. repeat split; left; reflexivity. Qed.

(** C8. On a board whose focus is one of the three status values, [Next] and
    [Prev] are inverse to each other, three applications of either give the
    board back, and the single steps follow Todo, InProgress, Done, Todo
    (backwards for [Prev]); both change the field [focused] and no other
    field, and they neither read nor write the heap of columns; and in every
    state the program reaches, the focus of every board and the target of
    every form is one of the three status values. *)
Theorem focus_navigation_is_cyclic :
  (forall m : Model,
      valid_status (Model_focused m) ->
      Model_Prev (Model_Next m) = m /\ Model_Next (Model_Prev m) = m
      /\ Model_Next (Model_Next (Model_Next m)) = m
      /\ Model_Prev (Model_Prev (Model_Prev m)) = m)
  /\ (forall m : Model,
      (Model_focused m = todo ->
       Model_focused (Model_Next m) = inProgress
       /\ Model_focused (Model_Prev m) = done)
      /\ (Model_focused m = inProgress ->
          Model_focused (Model_Next m) = done
          /\ Model_focused (Model_Prev m) = todo)
      /\ (Model_focused m = done ->
          Model_focused (Model_Next m) = todo
          /\ Model_focused (Model_Prev m) = inProgress))
  /\ (forall m : Model,
      Model_Next m = set_focused (Model_focused (Model_Next m)) m
      /\ Model_Prev m = set_focused (Model_focused (Model_Prev m)) m
      /\ Model_loaded (Model_Next m) = Model_loaded m
      /\ Model_lists (Model_Next m) = Model_lists m
      /\ Model_quitting (Model_Next m) = Model_quitting m
      /\ Model_loaded (Model_Prev m) = Model_loaded m
      /\ Model_lists (Model_Prev m) = Model_lists m
      /\ Model_quitting (Model_Prev m) = Model_quitting m)
  /\ (forall list_Update textinput_Update textarea_Update msgs p,
      run list_Update textinput_Update textarea_Update msgs main = Some p ->
      focus_ok p).
Proof.
  split; [ | split; [ | split ] ].
  - intros [l f s q] Hv. simpl in Hv.
    destruct Hv as [-> | [-> | ->]]; repeat split; reflexivity.
  - intros [l f s q]. simpl.
    repeat split; subst f; reflexivity.
  - intros m. unfold Model_Next, Model_Prev.
    destruct (Model_focused m =? done), (Model_focused m =? todo);
      repeat split; reflexivity.
  - intros lu tiu tau msgs p Hrun.
    refine (run_invariant lu tiu tau focus_ok _ msgs main p focus_ok_main Hrun).
    intros msg q q' out Hq Hstep. eapply focus_ok_step; eauto.
Qed.

Lemma focus_navigation_is_cyclic_witness :
  Model_Prev (Model_Next (sample_board done)) = sample_board done
  /\ Model_focused (Model_Next (sample_board done)) = todo
  /\ focus_ok {| Program_world :=
                   {| heap := empty_heap;
                      models_model := IsModel New;
                      models_form := IsForm (NewForm todo) |};
                 Program_model := IsModel (sample_board done) |}.
Proof.
  destruct focus_navigation_is_cyclic as (Hcyc & Hstep & _ & Hrun).
  split; [ | split ].
  - apply (Hcyc (sample_board done)). right; right; reflexivity.
  - apply (Hstep (sample_board done)). reflexivity.
  - apply (Hrun sample_list_Update sample_textinput_Update sample_textarea_Update
             [WindowSizeMsg 80 24; KeyMsg "left"]).
    reflexivity.
Defined.

(** ** Initialisation *)

Lemma set_heap_same w : set_heap (heap w) w = w.
Proof. destruct w; reflexivity. Qed.

Lemma slice_set_length h s i v h' :
  slice_set h s i v = Some h' -> length h' = length h.
Proof.
  intros H. destruct (slice_set_inv _ _ _ _ _ H) as (a & arr & _ & _ & _ & ->).
  apply length_insert.
Qed.

Lemma DeleteTask_length m h m' h' :
  DeleteTask m h = Some (m', h') -> length h' = length h.
Proof.
  unfold DeleteTask. intros H.
  destruct (slice_get h (Model_lists m) (Model_focused m)) as [col|];
    simpl in H; [ | discriminate ].
  destruct (list_SelectedItem col).
  - destruct (slice_set h (Model_lists m) (Model_focused m) _) as [h1|] eqn:Hset;
      simpl in H; [ | discriminate ].
    injection H as _ <-. eauto using slice_set_length.
  - injection H as _ <-. reflexivity.
Qed.

Lemma MoveToNext_length m h m' h' :
  MoveToNext m h = Some (m', h') -> length h' = length h.
Proof.
  unfold MoveToNext. intros H.
  destruct (slice_get h (Model_lists m) (Model_focused m)) as [col|];
    simpl in H; [ | discriminate ].
  destruct (list_SelectedItem col) as [t|].
  - destruct (slice_set h (Model_lists m) (Model_focused m) _) as [h1|] eqn:Hset;
      simpl in H; [ | discriminate ].
    destruct (slice_get h1 (Model_lists m) (Task_status (Task_Next t)));
      simpl in H; [ | discriminate ].
    injection H as _ <-. eauto using slice_set_length.
  - injection H as _ <-. reflexivity.
Qed.

Lemma call_Cmd_length c h out h' :
  call_Cmd c h = Some (out, h') -> length h' = length h.
Proof.
  intros H. destruct c; simpl in H; try (injection H as _ <-; reflexivity).
  - destruct (MoveToNext m h) as [[m1 h1]|] eqn:E; simpl in H; [ | discriminate ].
    injection H as _ <-. eauto using MoveToNext_length.
  - destruct (DeleteTask m h) as [[m1 h1]|] eqn:E; simpl in H; [ | discriminate ].
    injection H as _ <-. eauto using DeleteTask_length.
Qed.

(** The columns [initLists] allocates: a fresh array of three empty columns. *)
Lemma initLists_columns W H m h :
  fst (initLists W H m h)
  = {| Model_loaded := Model_loaded m; Model_focused := Model_focused m;
       Model_lists := Some (length h); Model_quitting := Model_quitting m |}
  /\ length (snd (initLists W H m h)) = S (length h)
  /\ slice_len (snd (initLists W H m h)) (Some (length h)) = 3%nat
  /\ (forall s i, s <> Some (length h) ->
      slice_get (snd (initLists W H m h)) s i = slice_get h s i)
  /\ (forall i, valid_status i ->
      exists col, slice_get (snd (initLists W H m h)) (Some (length h)) i = Some col
                  /\ list_Items col = []
                  /\ list_width col = W ÷ divisor /\ list_height col = H ÷ 2).
Proof.
  unfold initLists, slice_alloc. simpl.
  split; [ reflexivity | ]. split; [ rewrite length_app; simpl; lia | ].
  split; [ | split ].
  - unfold slice_len. rewrite list_lookup_middle by reflexivity. reflexivity.
  - intros s i Hs. unfold slice_get. destruct s as [b|]; simpl; [ | reflexivity ].
    destruct (decide (b < length h)%nat) as [Hlt | Hge].
    + rewrite lookup_app_l by exact Hlt. reflexivity.
    + assert (b <> length h) by congruence.
      rewrite !lookup_ge_None_2; [ reflexivity | lia | rewrite length_app; simpl; lia ].
  - intros i Hi. unfold slice_get. simpl.
    rewrite list_lookup_middle by reflexivity. simpl.
    destruct Hi as [-> | [-> | ->]]; eexists; (split; [ reflexivity | auto ]).
Qed.

Section Initialisation.

Variable list_Update : Msg -> list_Model -> list_Model * widget_Cmd.
Variable textinput_Update : Msg -> textinput_Model -> textinput_Model * widget_Cmd.
Variable textarea_Update : Msg -> textarea_Model -> textarea_Model * widget_Cmd.

(** A window-size message that the focused column ignores leaves the world
    as it is. *)
Lemma Model_delegate_resize W H m w col :
  ignores_resize list_Update ->
  slice_get (heap w) (Model_lists m) (Model_focused m) = Some col ->
  Model_delegate list_Update (WindowSizeMsg W H) m w
  = Some (IsModel m, from_widget (snd (list_Update (WindowSizeMsg W H) col)), w).
Proof.
  intros Hig Hcol.
  destruct (Model_delegate_Some list_Update (WindowSizeMsg W H) m w col Hcol)
    as (h1 & Hset & ->).
  rewrite Hig in Hset.
  destruct (slice_get_inv _ _ _ _ Hcol) as (a & arr & Hs & Ha & Hi & Hc).
  destruct (slice_set_inv _ _ _ _ _ Hset) as (a' & arr' & Hs' & Ha' & _ & ->).
  assert (a' = a) by congruence. subst a'.
  assert (arr' = arr) by congruence. subst arr'.
  rewrite (heap_write_id _ _ _ _ _ Ha Hc), set_heap_same. reflexivity.
Qed.

Lemma initialised_once_step msg p p' out :
  initialised_once p ->
  step list_Update textinput_Update textarea_Update msg p = Some (p', out) ->
  initialised_once p'.
Proof.
  intros (Hlen & (m0 & Hreg) & Hact) Hstep.
  destruct (step_inv _ _ _ _ _ _ _ Hstep) as (a & c & w & h & Hup & Hcall & ->).
  apply call_Cmd_length in Hcall. clear Hstep.
  assert (Hnil : forall h0 : Heap, length h0 = 0%nat -> h0 = [])
    by (intros h0; apply nil_length_inv).
  unfold initialised_once. simpl. rewrite Hcall.
  destruct (Program_model p) as [m | m]; simpl in Hup.
  - destruct (Model_Update_cases _ _ _ _ _ _ _ Hup)
      as [(_ & E) | [(_ & E) | [(_ & E) | [(_ & E) | [(_ & E) | [(_ & E) |
          [(W & H & _ & Hl & E) | E]]]]]]].
    + injection E as -> _ ->. simpl. split; [ exact Hlen | ]. split; [ eauto | ].
      intros Hf. apply Hnil. rewrite Hcall, (Hact Hf). reflexivity.
    + injection E as -> _ ->. simpl. split; [ exact Hlen | ]. split; [ eauto | ].
      intros Hf. apply Hnil. rewrite Hcall, (Hact Hf). reflexivity.
    + injection E as -> _ ->. simpl. split; [ exact Hlen | ]. split; [ eauto | ].
      intros Hf. apply Hnil. rewrite Hcall, (Hact Hf). reflexivity.
    + rewrite (Form_Update_other textinput_Update textarea_Update) in E
        by discriminate.
      injection E as -> _ ->. simpl. split; [ exact Hlen | ]. split; [ eauto | ].
      intros Hf. apply Hnil. rewrite Hcall, (Hact Hf). reflexivity.
    + destruct (Model_delegate_inv _ _ _ _ _ E) as (col & h1 & _ & Hset & Er).
      injection Er as -> _ ->. apply slice_set_length in Hset. simpl in Hcall |- *.
      rewrite Hset. split; [ exact Hlen | ]. split; [ eauto | ].
      intros Hf. apply Hnil. rewrite Hcall, Hset.
      rewrite Hact; [ reflexivity | ].
      unfold Model_Prev in Hf. destruct (Model_focused m =? todo); exact Hf.
    + destruct (Model_delegate_inv _ _ _ _ _ E) as (col & h1 & _ & Hset & Er).
      injection Er as -> _ ->. apply slice_set_length in Hset. simpl in Hcall |- *.
      rewrite Hset. split; [ exact Hlen | ]. split; [ eauto | ].
      intros Hf. apply Hnil. rewrite Hcall, Hset.
      rewrite Hact; [ reflexivity | ].
      unfold Model_Next in Hf. destruct (Model_focused m =? done); exact Hf.
    + destruct (Model_delegate_inv _ _ _ _ _ E) as (col & h1 & _ & Hset & Er).
      injection Er as -> _ ->. apply slice_set_length in Hset.
      cbn [heap set_heap models_model Model_loaded] in Hcall, Hset |- *.
      destruct (initLists_columns W H m (heap (Program_world p))) as (_ & Hl1 & _).
      rewrite Hset, Hl1, (Hact Hl). simpl.
      split; [ lia | ]. split; [ eauto | discriminate ].
    + destruct (Model_delegate_inv _ _ _ _ _ E) as (col & h1 & _ & Hset & Er).
      injection Er as -> _ ->. apply slice_set_length in Hset. simpl in Hcall |- *.
      rewrite Hset. split; [ exact Hlen | ]. split; [ eauto | ].
      intros Hf. apply Hnil. rewrite Hcall, Hset, (Hact Hf). reflexivity.
  - injection Hup as Hup. rewrite Hreg in Hact. simpl in Hact.
    destruct (Form_Update_cases textinput_Update textarea_Update msg m (Program_world p))
      as [(_ & E) | [(_ & _ & E) | [(_ & _ & E) | (_ & _ & E)]]];
      rewrite E in Hup; injection Hup as <- <- <-; simpl;
      (split; [ exact Hlen | ]); (split; [ eauto | ]);
      rewrite ?Hreg; simpl;
      intros Hf; apply Hnil; rewrite Hcall; apply Hact in Hf; rewrite Hf; reflexivity.
Qed.

End Initialisation.

Lemma initialised_once_main : initialised_once main.
Proof.
  split; [ simpl; lia | ]. split; [ eexists; reflexivity | ]. intros _. reflexivity.
Qed.

(** C9. The first window-size message a board that is not loaded receives
    allocates one fresh array of three empty columns and sets [loaded]; a
    window-size message a loaded board receives changes neither the board
    nor the heap (the list widget being one that ignores such messages); and
    in every state the program reaches at most one array was ever allocated,
    that is, [initLists] ran at most once. *)
Theorem initLists_runs_at_most_once :
  (forall list_Update textinput_Update textarea_Update W H (m : Model) (w : World),
      ignores_resize list_Update ->
      Model_loaded m = false ->
      valid_status (Model_focused m) ->
      exists c m' w',
        Model_Update list_Update textinput_Update textarea_Update
                     (WindowSizeMsg W H) m w = Some (IsModel m', c, w')
        /\ m' = {| Model_loaded := true; Model_focused := Model_focused m;
                   Model_lists := Some (length (heap w));
                   Model_quitting := Model_quitting m |}
        /\ w' = set_heap (snd (initLists W H m (heap w))) w
        /\ length (heap w') = S (length (heap w))
        /\ slice_len (heap w') (Model_lists m') = 3%nat
        /\ (forall i, valid_status i -> column_length (heap w') m' i = Some 0%nat))
  /\ (forall list_Update textinput_Update textarea_Update W H (m : Model) (w : World)
             (col : list_Model),
      ignores_resize list_Update ->
      Model_loaded m = true ->
      slice_get (heap w) (Model_lists m) (Model_focused m) = Some col ->
      exists c,
        Model_Update list_Update textinput_Update textarea_Update
                     (WindowSizeMsg W H) m w = Some (IsModel m, c, w))
  /\ (forall list_Update textinput_Update textarea_Update msgs p,
      run list_Update textinput_Update textarea_Update msgs main = Some p ->
      initialised_once p
      /\ (length (heap (Program_world p)) <= 1)%nat).
Proof.
  split; [ | split ].
  - intros lu tiu tau W H m w Hig Hl Hv.
    destruct (initLists_columns W H m (heap w)) as (Hfst & Hlen & Hsl & _ & Hcols).
    destruct (Hcols _ Hv) as (col & Hcol & _).
    unfold Model_Update. rewrite Hl. simpl negb. cbv iota.
    destruct (initLists W H m (heap w)) as [m1 h1] eqn:E. simpl in Hfst, Hlen, Hsl, Hcol.
    subst m1. simpl.
    erewrite Model_delegate_resize; [ | exact Hig | simpl; exact Hcol ].
    eexists _, _, _. split; [ reflexivity | ]. split; [ reflexivity | ].
    split; [ reflexivity | ]. simpl. split; [ exact Hlen | ]. split; [ exact Hsl | ].
    intros i Hi. destruct (Hcols i Hi) as (ci & Hci & Hitems & _).
    unfold column_length. simpl in Hci |- *. rewrite Hci. simpl. rewrite Hitems.
    reflexivity.
  - intros lu tiu tau W H m w col Hig Hl Hcol.
    unfold Model_Update. rewrite Hl. simpl negb. cbv iota.
    erewrite Model_delegate_resize; eauto.
  - intros lu tiu tau msgs p Hrun.
    assert (Hinv : initialised_once p).
    { refine (run_invariant lu tiu tau initialised_once _ msgs main p
                initialised_once_main Hrun).
      intros msg q q' out Hq Hstep. eapply initialised_once_step; eauto. }
    split; [ exact Hinv | apply Hinv ].
Qed.

Lemma initLists_runs_at_most_once_witness :
  (exists c m' w',
      Model_Update sample_list_Update sample_textinput_Update sample_textarea_Update
                   (WindowSizeMsg 80 24) New (Program_world main)
      = Some (IsModel m', c, w')
      /\ Model_loaded m' = true)
  /\ (exists c,
      Model_Update sample_list_Update sample_textinput_Update sample_textarea_Update
                   (WindowSizeMsg 100 50) (sample_board todo)
                   (mkWorld empty_heap (IsModel New) (IsForm (NewForm todo)))
      = Some (IsModel (sample_board todo), c,
              mkWorld empty_heap (IsModel New) (IsForm (NewForm todo))))
  /\ (length (heap (Program_world
        {| Program_world := mkWorld empty_heap (IsModel New) (IsForm (NewForm todo));
           Program_model := IsModel (sample_board todo) |})) <= 1)%nat.
Proof.
  destruct initLists_runs_at_most_once as (Hfirst & Hlater & Hrun).
  split; [ | split ].
  - destruct (Hfirst sample_list_Update sample_textinput_Update sample_textarea_Update
                80 24 New (Program_world main))
      as (c & m' & w' & Hup & -> & _).
    + exact sample_list_Update_ignores_resize.
    + reflexivity.
    + left. reflexivity.
    + eexists c, _, w'. split; [ exact Hup | reflexivity ].
  - apply (Hlater sample_list_Update sample_textinput_Update sample_textarea_Update
             100 50 (sample_board todo) _
             (list_set_Title "To Do" (list_SetShowHelp false (list_New [] 20 12)))).
    + exact sample_list_Update_ignores_resize.
    + reflexivity.
    + reflexivity.
  - refine (proj2 (Hrun sample_list_Update sample_textinput_Update
                        sample_textarea_Update
                        [WindowSizeMsg 80 24; WindowSizeMsg 100 50] _ _)).
    reflexivity.
Defined.

(** ** The form *)

Section FormFocus.

Variable list_Update : Msg -> list_Model -> list_Model * widget_Cmd.
Variable textinput_Update : Msg -> textinput_Model -> textinput_Model * widget_Cmd.
Variable textarea_Update : Msg -> textarea_Model -> textarea_Model * widget_Cmd.

Hypothesis title_focus : title_keeps_focus textinput_Update.
Hypothesis description_focus : description_keeps_focus textarea_Update.

Lemma one_focused_NewForm x : one_focused (NewForm x).
Proof. reflexivity. Qed.

Lemma one_focused_delegate msg m :
  one_focused m ->
  one_focused (fst (Form_delegate textinput_Update textarea_Update msg m)).
Proof.
  unfold one_focused, Form_delegate. intros H.
  destruct (textinput_Focused (Form_title m)) eqn:Ht.
  - pose proof (title_focus msg (Form_title m)) as Hk.
    destruct (textinput_Update msg (Form_title m)) as [t c]. simpl in *.
    rewrite Hk, Ht. exact H.
  - pose proof (description_focus msg (Form_description m)) as Hk.
    destruct (textarea_Update msg (Form_description m)) as [d c]. simpl in *.
    rewrite Hk, Ht. exact H.
Qed.

Lemma forms_ok_Form_Update msg m w a c w' :
  one_focused m ->
  tea_one_focused (models_model w) -> tea_one_focused (models_form w) ->
  Form_Update textinput_Update textarea_Update msg m w = (a, c, w') ->
  tea_one_focused a /\ tea_one_focused (models_model w')
  /\ tea_one_focused (models_form w').
Proof.
  intros Hm Hwm Hwf H.
  destruct (Form_Update_cases textinput_Update textarea_Update msg m w)
    as [(_ & E) | [(_ & _ & E) | [(_ & _ & E) | (_ & _ & E)]]];
    rewrite E in H; injection H as <- <- <-; simpl.
  - auto.
  - split; [ reflexivity | auto ].
  - auto.
  - split; [ apply one_focused_delegate; exact Hm | auto ].
Qed.

Lemma forms_ok_step msg p p' out :
  forms_ok p ->
  step list_Update textinput_Update textarea_Update msg p = Some (p', out) ->
  forms_ok p'.
Proof.
  intros (Ha & Hwm & Hwf) Hstep.
  destruct (step_inv _ _ _ _ _ _ _ Hstep) as (a & c & w & h & Hup & Hcall & ->).
  unfold forms_ok. simpl. clear Hstep Hcall.
  destruct (Program_model p) as [m | m]; simpl in Hup, Ha.
  - destruct (Model_Update_cases _ _ _ _ _ _ _ Hup)
      as [(_ & E) | [(_ & E) | [(_ & E) | [(_ & E) | [(_ & E) | [(_ & E) |
          [(W & H & _ & _ & E) | E]]]]]]];
      try (injection E as -> _ ->; simpl; now auto);
      try (destruct (Model_delegate_inv _ _ _ _ _ E) as (col & h1 & _ & _ & Er);
           injection Er as -> _ ->; simpl; now auto).
    symmetry in E. eapply forms_ok_Form_Update; [ | | | exact E ]; simpl; auto.
    apply one_focused_NewForm.
    apply one_focused_NewForm.
  - injection Hup as Hup. eapply forms_ok_Form_Update; eauto.
Qed.

End FormFocus.

Lemma forms_ok_main : forms_ok main.
Proof. repeat split. Qed.

(** C10. A new form has its title focused and its description not; the first
    confirm (enter while the title is focused) blurs the title, focuses the
    description and produces no task; any message other than enter and
    ctrl+c is handed to the focused field and to that field alone; and, the
    text widgets being ones whose [Update] leaves their focus flag alone,
    every form the program reaches has exactly one of its two fields
    focused. *)
Theorem form_focus_is_exclusive :
  (forall x : status,
      textinput_Focused (Form_title (NewForm x)) = true
      /\ textarea_Focused (Form_description (NewForm x)) = false
      /\ Form_focused (NewForm x) = x)
  /\ (forall textinput_Update textarea_Update (m : Form) (w : World),
      textinput_Focused (Form_title m) = true ->
      exists m',
        Form_Update textinput_Update textarea_Update (KeyMsg "enter") m w
        = (IsForm m', textarea_Blink, w)
        /\ textinput_Focused (Form_title m') = false
        /\ textarea_Focused (Form_description m') = true
        /\ textinput_Value (Form_title m') = textinput_Value (Form_title m)
        /\ textarea_Value (Form_description m')
           = textarea_Value (Form_description m)
        /\ Form_focused m' = Form_focused m)
  /\ (forall textinput_Update textarea_Update msg (m : Form) (w : World),
      msg <> KeyMsg "enter" -> msg <> KeyMsg "ctrl+c" ->
      exists m' c,
        Form_Update textinput_Update textarea_Update msg m w = (IsForm m', c, w)
        /\ (textinput_Focused (Form_title m) = true ->
            m' = set_title (fst (textinput_Update msg (Form_title m))) m
            /\ Form_description m' = Form_description m)
        /\ (textinput_Focused (Form_title m) = false ->
            m' = set_description (fst (textarea_Update msg (Form_description m))) m
            /\ Form_title m' = Form_title m))
  /\ (forall list_Update textinput_Update textarea_Update msgs p,
      title_keeps_focus textinput_Update ->
      description_keeps_focus textarea_Update ->
      run list_Update textinput_Update textarea_Update msgs main = Some p ->
      forms_ok p).
Proof.
  split; [ | split; [ | split ] ].
  - intros x. repeat split.
  - intros tiu tau m w Hf. eexists. split.
    + apply Form_Update_first_confirm. exact Hf.
    + repeat split.
  - intros tiu tau msg m w He Hq.
    rewrite (Form_Update_other tiu tau msg m w Hq He).
    eexists _, _. split; [ reflexivity | ].
    unfold Form_delegate. split; intros Hf; rewrite Hf.
    + destruct (tiu msg (Form_title m)); split; reflexivity.
    + destruct (tau msg (Form_description m)); split; reflexivity.
  - intros lu tiu tau msgs p Ht Hd Hrun.
    refine (run_invariant lu tiu tau forms_ok _ msgs main p forms_ok_main Hrun).
    intros msg q q' out Hq Hstep. eapply forms_ok_step; eauto.
Qed.

Lemma form_focus_is_exclusive_witness :
  (exists m',
      Form_Update sample_textinput_Update sample_textarea_Update (KeyMsg "enter")
                  (NewForm done) (Program_world main)
      = (IsForm m', textarea_Blink, Program_world main)
      /\ textinput_Focused (Form_title m') = false
      /\ textarea_Focused (Form_description m') = true)
  /\ forms_ok
       {| Program_world :=
            mkWorld empty_heap (IsModel (sample_board todo)) (IsForm (NewForm todo));
          Program_model :=
            IsForm (mkForm todo (mk_textinput "a" false) (mk_textarea "" true)) |}.
Proof.
  destruct form_focus_is_exclusive as (_ & Hfirst & _ & Hrun).
  split.
  - destruct (Hfirst sample_textinput_Update sample_textarea_Update
                (NewForm done) (Program_world main) eq_refl)
      as (m' & H1 & H2 & H3 & _).
    exists m'. auto.
  - apply (Hrun sample_list_Update sample_textinput_Update sample_textarea_Update
             [WindowSizeMsg 80 24; KeyMsg "n"; KeyMsg "a"; KeyMsg "enter"]).
    + exact sample_textinput_Update_keeps_focus.
    + exact sample_textarea_Update_keeps_focus.
    + reflexivity.
Defined.

(** ** The board while a form is open *)

Section Suspended.

Variable list_Update : Msg -> list_Model -> list_Model * widget_Cmd.
Variable textinput_Update : Msg -> textinput_Model -> textinput_Model * widget_Cmd.
Variable textarea_Update : Msg -> textarea_Model -> textarea_Model * widget_Cmd.

(** One message processed by a form: the program does not panic, the heap
    and the saved board are what they were, and the next active model is a
    form again or the saved board. *)
Lemma form_step msg m w :
  exists a out w',
    step list_Update textinput_Update textarea_Update msg
         {| Program_world := w; Program_model := IsForm m |}
    = Some ({| Program_world := w'; Program_model := a |}, out)
    /\ heap w' = heap w
    /\ models_model w' = models_model w
    /\ ((exists m', a = IsForm m' /\ forall t, out <> TaskMsg t)
        \/ (a = models_model w /\ out = TaskMsg (Form_CreateTask m))).
Proof.
  unfold step. simpl.
  destruct (Form_Update_cases textinput_Update textarea_Update msg m w)
    as [(_ & E) | [(_ & _ & E) | [(_ & _ & E) | (_ & _ & E)]]]; rewrite E; simpl.
  - eexists _, _, _. split; [ reflexivity | ]. simpl.
    split; [ reflexivity | ]. split; [ reflexivity | ].
    left. eexists. split; [ reflexivity | discriminate ].
  - eexists _, _, _. split; [ reflexivity | ]. simpl.
    split; [ reflexivity | ]. split; [ reflexivity | ].
    left. eexists. split; [ reflexivity | discriminate ].
  - eexists _, _, _. split; [ reflexivity | ]. simpl.
    split; [ reflexivity | ]. split; [ reflexivity | ].
    right. split; reflexivity.
  - unfold Form_delegate.
    destruct (textinput_Focused (Form_title m)).
    + destruct (textinput_Update msg (Form_title m)) as [t [tag|]]; simpl;
        eexists _, _, _; (split; [ reflexivity | ]); simpl;
        (split; [ reflexivity | ]); (split; [ reflexivity | ]);
        left; eexists; (split; [ reflexivity | discriminate ]).
    + destruct (textarea_Update msg (Form_description m)) as [t [tag|]]; simpl;
        eexists _, _, _; (split; [ reflexivity | ]); simpl;
        (split; [ reflexivity | ]); (split; [ reflexivity | ]);
        left; eexists; (split; [ reflexivity | discriminate ]).
Qed.

Lemma while_form_frame p msgs p' :
  while_form list_Update textinput_Update textarea_Update p msgs p' ->
  heap (Program_world p') = heap (Program_world p)
  /\ models_model (Program_world p') = models_model (Program_world p)
  /\ (p' = p
      \/ (exists m', Program_model p' = IsForm m')
      \/ Program_model p' = models_model (Program_world p)).
Proof.
  induction 1 as [ p | p m msg p1 out msgs p2 Hm Hstep Hrest IH ].
  - auto.
  - destruct p as [w a]. simpl in Hm. subst a.
    destruct (form_step msg m w) as (a1 & out1 & w1 & Hs & Hh & Hr & Hcase).
    rewrite Hs in Hstep. injection Hstep as <- <-.
    simpl in IH. destruct IH as (IHh & IHr & IHcase). simpl.
    split; [ congruence | ]. split; [ congruence | ].
    destruct IHcase as [-> | [Hform | Hback]].
    + simpl. destruct Hcase as [(m' & -> & _) | (-> & _)]; eauto.
    + eauto.
    + right; right. congruence.
Qed.

End Suspended.

Lemma Model_Update_n list_Update textinput_Update textarea_Update m w :
  Model_Update list_Update textinput_Update textarea_Update (KeyMsg "n") m w
  = Some (Form_Update textinput_Update textarea_Update NilMsg
            (NewForm (Model_focused m))
            {| heap := heap w; models_model := IsModel m;
               models_form := IsForm (NewForm (Model_focused m)) |}).
Proof. reflexivity. Qed.

(** C3. The 'n' key saves the board, as it is, in the registry and makes a
    form the active model without touching the heap.  Every message a form
    processes leaves the heap (the columns, their contents and selections)
    and the saved board (focus, loaded flag, columns reference) unchanged,
    so the board that becomes active when the form completes is the saved
    one.  ctrl+c while the form is open changes nothing at all and produces
    no task. *)
Theorem board_is_preserved_across_form :
  (forall list_Update textinput_Update textarea_Update (m : Model) (w : World),
      exists m' c w',
        Model_Update list_Update textinput_Update textarea_Update (KeyMsg "n") m w
        = Some (IsForm m', c, w')
        /\ models_model w' = IsModel m
        /\ heap w' = heap w
        /\ Form_focused m' = Model_focused m)
  /\ (forall list_Update textinput_Update textarea_Update msg (m : Form) (w : World),
      exists a out w',
        step list_Update textinput_Update textarea_Update msg
             {| Program_world := w; Program_model := IsForm m |}
        = Some ({| Program_world := w'; Program_model := a |}, out)
        /\ heap w' = heap w
        /\ models_model w' = models_model w
        /\ ((exists m', a = IsForm m' /\ forall t, out <> TaskMsg t)
            \/ (a = models_model w /\ out = TaskMsg (Form_CreateTask m))))
  /\ (forall list_Update textinput_Update textarea_Update p msgs p',
      while_form list_Update textinput_Update textarea_Update p msgs p' ->
      heap (Program_world p') = heap (Program_world p)
      /\ models_model (Program_world p') = models_model (Program_world p)
      /\ (p' = p
          \/ (exists m', Program_model p' = IsForm m')
          \/ Program_model p' = models_model (Program_world p)))
  /\ (forall list_Update textinput_Update textarea_Update (m : Form) (w : World),
      step list_Update textinput_Update textarea_Update (KeyMsg "ctrl+c")
           {| Program_world := w; Program_model := IsForm m |}
      = Some ({| Program_world := w; Program_model := IsForm m |},
              OtherMsg "tea.QuitMsg")).
Proof.
  split; [ | split; [ | split ] ].
  - intros lu tiu tau m w. rewrite Model_Update_n.
    rewrite (Form_Update_other tiu tau) by discriminate.
    eexists _, _, _. split; [ reflexivity | ]. simpl.
    split; [ reflexivity | ]. split; [ reflexivity | ].
    apply Form_delegate_focused.
  - intros lu tiu tau msg m w. apply form_step.
  - intros lu tiu tau p msgs p' H. eapply while_form_frame; eauto.
  - intros lu tiu tau m w. unfold step. simpl.
    rewrite set_heap_same. reflexivity.
Qed.

Lemma sample_form_run :
  while_form sample_list_Update sample_textinput_Update sample_textarea_Update
    {| Program_world :=
         mkWorld one_task_heap (IsModel (sample_board todo)) (IsForm (NewForm todo));
       Program_model := IsForm (NewForm todo) |}
    [KeyMsg "a"; KeyMsg "enter"; KeyMsg "b"; KeyMsg "enter"]
    {| Program_world :=
         mkWorld one_task_heap (IsModel (sample_board todo))
                 (IsForm (mkForm todo (mk_textinput "a" false) (mk_textarea "b" true)));
       Program_model := IsModel (sample_board todo) |}.
Proof.
  eapply while_form_cons; [ reflexivity | reflexivity | ].
  eapply while_form_cons; [ reflexivity | reflexivity | ].
  eapply while_form_cons; [ reflexivity | reflexivity | ].
  eapply while_form_cons; [ reflexivity | reflexivity | ].
  apply while_form_nil.
Qed.

Lemma board_is_preserved_across_form_witness :
  while_form sample_list_Update sample_textinput_Update sample_textarea_Update
    {| Program_world :=
         mkWorld one_task_heap (IsModel (sample_board todo)) (IsForm (NewForm todo));
       Program_model := IsForm (NewForm todo) |}
    [KeyMsg "a"; KeyMsg "enter"; KeyMsg "b"; KeyMsg "enter"]
    {| Program_world :=
         mkWorld one_task_heap (IsModel (sample_board todo))
                 (IsForm (mkForm todo (mk_textinput "a" false) (mk_textarea "b" true)));
       Program_model := IsModel (sample_board todo) |}
  /\ heap (mkWorld one_task_heap (IsModel (sample_board todo))
                   (IsForm (mkForm todo (mk_textinput "a" false)
                                   (mk_textarea "b" true))))
     = one_task_heap.
Proof.
  split; [ exact sample_form_run | ].
  destruct board_is_preserved_across_form as (_ & _ & Hframe & _).
  destruct (Hframe _ _ _ _ _ _ sample_form_run) as (Hh & _).
  exact Hh.
Defined.

(** ** The form's task *)

(** A message the board does not switch on goes to the focused column's own
    [Update] and nowhere else; if that keeps the items, no column's items
    change. *)
Lemma Model_delegate_items list_Update msg m w col :
  keeps_items list_Update ->
  slice_get (heap w) (Model_lists m) (Model_focused m) = Some col ->
  exists c w',
    Model_delegate list_Update msg m w = Some (IsModel m, c, w')
    /\ models_model w' = models_model w
    /\ forall s i, list_Items <$> slice_get (heap w') s i
                   = list_Items <$> slice_get (heap w) s i.
Proof.
  intros Hk Hcol.
  destruct (Model_delegate_Some list_Update msg m w col Hcol) as (h1 & Hset & Hd).
  eexists _, _. split; [ exact Hd | ]. split; [ reflexivity | ].
  destruct (slice_get_inv _ _ _ _ Hcol) as (a & arr & Hs & Ha & Hi & Hc).
  destruct (slice_set_inv _ _ _ _ _ Hset) as (a' & arr' & Hs' & Ha' & _ & ->).
  assert (a' = a) by congruence. subst a'.
  assert (arr' = arr) by congruence. subst arr'.
  intros s i. simpl.
  destruct (decide (s = Some a /\ i = Model_focused m)) as [[-> ->] | Hne].
  - rewrite slice_get_write_eq by (eauto using lookup_lt_Some).
    rewrite <- Hs, Hcol. simpl. rewrite Hk. reflexivity.
  - rewrite slice_get_write_ne; auto.
    destruct (decide (s = Some a)); [ right | left ]; intuition congruence.
Qed.

(** C2. What the round trip through the form does.  The first confirm moves
    the focus to the description.  The second confirm, with the title [T] and
    the description [D] in the fields, makes the saved board the active
    model and returns the command whose message is the task with status
    [X], title [T] and description [D].  But [Model.Update] has no case for
    that message: it hands it to the focused column's own [Update], which
    keeps the column's items, so the items of every column are what they
    were and column [X] has not grown. *)
Theorem form_round_trip_inserts_nothing
  list_Update textinput_Update textarea_Update
  (X : status) (T D : string) (m : Model) (w : World) (f : Form) (col : list_Model) :
  keeps_items list_Update ->
  models_model w = IsModel m ->
  Model_focused m = X ->
  slice_get (heap w) (Model_lists m) X = Some col ->
  Form_focused f = X ->
  textinput_Value (Form_title f) = T ->
  textinput_Focused (Form_title f) = true ->
  exists f1,
    Form_Update textinput_Update textarea_Update (KeyMsg "enter") f w
    = (IsForm f1, textarea_Blink, w)
    /\ forall f2,
        Form_focused f2 = Form_focused f1 ->
        Form_title f2 = Form_title f1 ->
        textarea_Value (Form_description f2) = D ->
        exists w2 c3 w3,
          Form_Update textinput_Update textarea_Update (KeyMsg "enter") f2 w
          = (IsModel m, bound_CreateTask f2, w2)
          /\ call_Cmd (bound_CreateTask f2) (heap w2)
             = Some (TaskMsg (NewTask X T D), heap w)
          /\ Model_Update list_Update textinput_Update textarea_Update
                          (TaskMsg (NewTask X T D)) m w2
             = Some (IsModel m, c3, w3)
          /\ (forall i, list_Items <$> slice_get (heap w3) (Model_lists m) i
                        = list_Items <$> slice_get (heap w) (Model_lists m) i)
          /\ column_length (heap w3) m X = column_length (heap w) m X.
Proof.
  intros Hk Hreg Hfoc Hcol HfX HfT Hff.
  eexists. split; [ apply Form_Update_first_confirm; exact Hff | ].
  intros f2 H2f H2t H2d. simpl in H2f, H2t.
  assert (Hnf : textinput_Focused (Form_title f2) = false) by (rewrite H2t; reflexivity).
  rewrite (Form_Update_second_confirm textinput_Update textarea_Update f2 w Hnf).
  rewrite Hreg.
  assert (Htask : Form_CreateTask f2 = NewTask X T D).
  { unfold Form_CreateTask. rewrite H2f, H2t, H2d, HfX. simpl.
    unfold textinput_Value in HfT. rewrite HfT. reflexivity. }
  set (w2 := {| heap := heap w; models_model := IsModel m; models_form := IsForm f2 |}).
  destruct (Model_delegate_items list_Update (TaskMsg (NewTask X T D)) m w2 col Hk)
    as (c3 & w3 & Hd & _ & Hitems).
  { simpl. rewrite Hfoc. exact Hcol. }
  exists w2, c3, w3. split; [ reflexivity | ].
  split; [ simpl; rewrite Htask; reflexivity | ].
  split; [ exact Hd | ].
  split; [ intros i; apply Hitems | ].
  unfold column_length. specialize (Hitems (Model_lists m) X). simpl in Hitems.
  destruct (slice_get (heap w3) (Model_lists m) X) as [c1|],
           (slice_get (heap w) (Model_lists m) X) as [c0|];
    simpl in *; congruence.
Qed.

Lemma form_round_trip_inserts_nothing_witness :
  exists w3 c3,
    Model_Update sample_list_Update sample_textinput_Update sample_textarea_Update
                 (TaskMsg (NewTask todo "Write spec" "Core engine"))
                 (sample_board todo)
                 (mkWorld empty_heap (IsModel (sample_board todo))
                    (IsForm (mkForm todo (mk_textinput "Write spec" false)
                                    (mk_textarea "Core engine" true))))
    = Some (IsModel (sample_board todo), c3, w3)
    /\ column_length (heap w3) (sample_board todo) todo = Some 0%nat.
Proof.
  destruct (form_round_trip_inserts_nothing
              sample_list_Update sample_textinput_Update sample_textarea_Update
              todo "Write spec" "Core engine" (sample_board todo)
              (mkWorld empty_heap (IsModel (sample_board todo)) (IsForm (NewForm todo)))
              (mkForm todo (mk_textinput "Write spec" true) (mk_textarea "" false))
              (list_set_Title "To Do" (list_SetShowHelp false (list_New [] 20 12)))
              sample_list_Update_keeps_items eq_refl eq_refl eq_refl eq_refl eq_refl
              eq_refl)
    as (f1 & Hfirst & Hsecond).
  injection Hfirst as <-.
  destruct (Hsecond (mkForm todo (mk_textinput "Write spec" false)
                            (mk_textarea "Core engine" true))
                    eq_refl eq_refl eq_refl)
    as (w2 & c3 & w3 & H2 & _ & H3 & _ & Hlen).
  injection H2 as <-.
  exists w3, c3. split; [ exact H3 | exact Hlen ].
Defined.

(** The round trip on the freshly loaded board, message by message: the
    second confirm hands back the task "Write spec"/"Core engine" for
    delivery; once it is delivered the board is active again, focused on To
    Do, and all three columns are still empty. *)
Example form_round_trip_on_empty_board :
  let step0 := step sample_list_Update sample_textinput_Update sample_textarea_Update in
  let run0 := run sample_list_Update sample_textinput_Update sample_textarea_Update in
  let after p := '(p', _) ← p; Some p' in
  let p5 := run0 [WindowSizeMsg 80 24; KeyMsg "n"; KeyMsg "Write spec";
                  KeyMsg "enter"; KeyMsg "Core engine"] main in
  (snd <$> (p5 ≫= step0 (KeyMsg "enter")))
  = Some (TaskMsg (NewTask todo "Write spec" "Core engine"))
  /\ after (after (p5 ≫= step0 (KeyMsg "enter"))
            ≫= step0 (TaskMsg (NewTask todo "Write spec" "Core engine")))
     = Some {| Program_world :=
                 mkWorld empty_heap (IsModel (sample_board todo))
                   (IsForm (mkForm todo (mk_textinput "Write spec" false)
                                   (mk_textarea "Core engine" true)));
               Program_model := IsModel (sample_board todo) |}
  /\ column_length empty_heap (sample_board todo) todo = Some 0%nat.
Proof. repeat split; reflexivity. Qed.

(** ** The enter key on the board *)

(** The command the enter key returns is [m.MoveToNext] bound to the [m] of
    that [Update] call, while the model [Update] returns is a copy of that
    [m] made before the command runs: whatever the command does, the active
    board keeps its focus. *)
Lemma enter_key_keeps_focus list_Update textinput_Update textarea_Update m w p' out :
  step list_Update textinput_Update textarea_Update (KeyMsg "enter")
       {| Program_world := w; Program_model := IsModel m |} = Some (p', out) ->
  Program_model p' = IsModel m /\ out = NilMsg.
Proof.
  unfold step. simpl. intros H.
  destruct (MoveToNext m (heap w)) as [[m1 h1]|]; simpl in H; [ | discriminate ].
  injection H as <- <-. split; reflexivity.
Qed.

(** On the board whose To Do column holds the one task: after the enter key
    the task is in no column and the focus is still on To Do. *)
Example enter_key_on_one_task_board :
  step sample_list_Update sample_textinput_Update sample_textarea_Update
       (KeyMsg "enter")
       {| Program_world := mkWorld one_task_heap (IsModel New) (IsForm (NewForm todo));
          Program_model := IsModel (sample_board todo) |}
  = Some ({| Program_world := mkWorld empty_heap (IsModel New) (IsForm (NewForm todo));
             Program_model := IsModel (sample_board todo) |}, NilMsg).
Proof. reflexivity. Qed.

(** * Further properties *)

(** ** Shapes of the heap *)

Lemma slice_set_lengths h s i v h' :
  slice_set h s i v = Some h' -> length <$> h' = length <$> h.
Proof.
  intros H. destruct (slice_set_inv _ _ _ _ _ H) as (a & arr & _ & Ha & _ & ->).
  rewrite list_fmap_insert, length_insert.
  apply list_insert_id. rewrite list_lookup_fmap, Ha. reflexivity.
Qed.

Lemma DeleteTask_lengths m h m' h' :
  DeleteTask m h = Some (m', h') -> m' = m /\ length <$> h' = length <$> h.
Proof.
  unfold DeleteTask. intros H.
  destruct (slice_get h (Model_lists m) (Model_focused m)) as [col|];
    simpl in H; [ | discriminate ].
  destruct (list_SelectedItem col).
  - destruct (slice_set h (Model_lists m) (Model_focused m) _) as [h1|] eqn:Hset;
      simpl in H; [ | discriminate ].
    injection H as <- <-. eauto using slice_set_lengths.
  - injection H as <- <-. auto.
Qed.

Lemma MoveToNext_lengths m h m' h' :
  MoveToNext m h = Some (m', h') -> length <$> h' = length <$> h.
Proof.
  unfold MoveToNext. intros H.
  destruct (slice_get h (Model_lists m) (Model_focused m)) as [col|];
    simpl in H; [ | discriminate ].
  destruct (list_SelectedItem col) as [t|].
  - destruct (slice_set h (Model_lists m) (Model_focused m) _) as [h1|] eqn:Hset;
      simpl in H; [ | discriminate ].
    destruct (slice_get h1 (Model_lists m) (Task_status (Task_Next t)));
      simpl in H; [ | discriminate ].
    injection H as _ <-. eauto using slice_set_lengths.
  - injection H as _ <-. reflexivity.
Qed.

Lemma call_Cmd_lengths c h out h' :
  call_Cmd c h = Some (out, h') -> length <$> h' = length <$> h.
Proof.
  intros H. destruct c; simpl in H; try (injection H as _ <-; reflexivity).
  - destruct (MoveToNext m h) as [[m1 h1]|] eqn:E; simpl in H; [ | discriminate ].
    injection H as _ <-. eauto using MoveToNext_lengths.
  - destruct (DeleteTask m h) as [[m1 h1]|] eqn:E; simpl in H; [ | discriminate ].
    injection H as _ <-. eapply DeleteTask_lengths; eauto.
Qed.

(** The columns of a loaded board that fits the heap. *)
Lemma board_shape_columns h m i :
  board_shape h m -> Model_loaded m = true -> valid_status i ->
  is_Some (slice_get h (Model_lists m) i).
Proof.
  intros [(_ & Hs & Hl) | (Hf & _)] Hload Hi; [ | congruence ].
  destruct h as [ | arr [ | arr' h ] ]; try discriminate.
  injection Hl as Hl. rewrite Hs. unfold slice_get. simpl.
  apply valid_status_range in Hi.
  replace (0 <=? i) with true by (symmetry; apply Z.leb_le; lia).
  apply lookup_lt_is_Some. lia.
Qed.

Lemma board_shape_lengths h h' m :
  length <$> h' = length <$> h -> board_shape h m -> board_shape h' m.
Proof.
  intros Hl [(H1 & H2 & H3) | (H1 & H2 & ->)].
  - left. rewrite Hl. auto.
  - right. split; [ exact H1 | ]. split; [ exact H2 | ].
    destruct h'; [ reflexivity | discriminate ].
Qed.

(** ** Empty columns *)

Lemma columns_empty_get h s i col :
  columns_empty h -> slice_get h s i = Some col -> list_Items col = [].
Proof.
  intros Hok Hget.
  destruct (slice_get_inv _ _ _ _ Hget) as (a & arr & _ & Ha & _ & Hc).
  eapply (Forall_lookup_1 (fun col => list_Items col = [])); [ | exact Hc ].
  eapply Forall_lookup_1; [ exact Hok | exact Ha ].
Qed.

Lemma columns_empty_set h s i v h' :
  columns_empty h -> list_Items v = [] -> slice_set h s i v = Some h' ->
  columns_empty h'.
Proof.
  intros Hok Hv Hset.
  destruct (slice_set_inv _ _ _ _ _ Hset) as (a & arr & _ & Ha & _ & ->).
  apply Forall_insert; [ exact Hok | ].
  apply Forall_insert; [ | exact Hv ].
  eapply Forall_lookup_1; [ exact Hok | exact Ha ].
Qed.

Lemma columns_empty_initLists W H m h :
  columns_empty h -> columns_empty (snd (initLists W H m h)).
Proof.
  intros Hok. unfold initLists, slice_alloc. simpl.
  apply Forall_app. split; [ exact Hok | ].
  repeat constructor.
Qed.

(** On empty columns the two board commands have nothing to do. *)
Lemma MoveToNext_columns_empty m h :
  columns_empty h ->
  is_Some (slice_get h (Model_lists m) (Model_focused m)) ->
  MoveToNext m h = Some (m, h).
Proof.
  intros Hok [col Hcol]. eapply MoveToNext_unselected; [ exact Hcol | ].
  apply list_SelectedItem_empty. eapply columns_empty_get; eauto.
Qed.

Lemma DeleteTask_columns_empty m h :
  columns_empty h ->
  is_Some (slice_get h (Model_lists m) (Model_focused m)) ->
  DeleteTask m h = Some (m, h).
Proof.
  intros Hok [col Hcol]. eapply DeleteTask_unselected; [ exact Hcol | ].
  apply list_SelectedItem_empty. eapply columns_empty_get; eauto.
Qed.

Lemma columns_empty_call_Cmd c h out h' :
  columns_empty h -> call_Cmd c h = Some (out, h') -> h' = h.
Proof.
  intros Hok H. destruct c; simpl in H; try (injection H as _ <-; reflexivity).
  - destruct (slice_get h (Model_lists m) (Model_focused m)) as [col|] eqn:Hcol.
    + rewrite MoveToNext_columns_empty in H by eauto. simpl in H. congruence.
    + unfold MoveToNext in H. rewrite Hcol in H. discriminate.
  - destruct (slice_get h (Model_lists m) (Model_focused m)) as [col|] eqn:Hcol.
    + rewrite DeleteTask_columns_empty in H by eauto. simpl in H. congruence.
    + unfold DeleteTask in H. rewrite Hcol in H. discriminate.
Qed.

Section Empty.

Variable list_Update : Msg -> list_Model -> list_Model * widget_Cmd.
Variable textinput_Update : Msg -> textinput_Model -> textinput_Model * widget_Cmd.
Variable textarea_Update : Msg -> textarea_Model -> textarea_Model * widget_Cmd.

Hypothesis items_kept : keeps_items list_Update.

Lemma columns_empty_delegate msg m w r :
  columns_empty (heap w) ->
  Model_delegate list_Update msg m w = Some r ->
  columns_empty (heap (snd r)).
Proof.
  intros Hok H.
  destruct (Model_delegate_inv _ _ _ _ _ H) as (col & h1 & Hcol & Hset & ->).
  simpl. eapply columns_empty_set; [ exact Hok | | exact Hset ].
  rewrite items_kept. eapply columns_empty_get; eauto.
Qed.

Lemma columns_empty_step msg p p' out :
  columns_empty (heap (Program_world p)) ->
  step list_Update textinput_Update textarea_Update msg p = Some (p', out) ->
  columns_empty (heap (Program_world p')).
Proof.
  intros Hok Hstep.
  destruct (step_inv _ _ _ _ _ _ _ Hstep) as (a & c & w & h & Hup & Hcall & ->).
  simpl.
  assert (Hw : columns_empty (heap w)).
  { destruct (Program_model p) as [m | m]; simpl in Hup.
    - destruct (Model_Update_cases _ _ _ _ _ _ _ Hup)
        as [(_ & E) | [(_ & E) | [(_ & E) | [(_ & E) | [(_ & E) | [(_ & E) |
            [(W & H & _ & _ & E) | E]]]]]]].
      + injection E as _ _ ->. exact Hok.
      + injection E as _ _ ->. exact Hok.
      + injection E as _ _ ->. exact Hok.
      + change w with (snd (a, c, w)). rewrite E, Form_Update_heap. exact Hok.
      + apply (columns_empty_delegate _ _ _ _ Hok E).
      + apply (columns_empty_delegate _ _ _ _ Hok E).
      + refine (columns_empty_delegate _ _ _ _ _ E).
        exact (columns_empty_initLists W H m _ Hok).
      + apply (columns_empty_delegate _ _ _ _ Hok E).
    - injection Hup as Hup. change w with (snd (a, c, w)). rewrite <- Hup.
      rewrite Form_Update_heap. exact Hok. }
  rewrite (columns_empty_call_Cmd _ _ _ _ Hw Hcall). exact Hw.
Qed.

Lemma columns_empty_run msgs p :
  run list_Update textinput_Update textarea_Update msgs main = Some p ->
  columns_empty (heap (Program_world p)).
Proof.
  intros Hrun.
  refine (run_invariant list_Update textinput_Update textarea_Update
            (fun p => columns_empty (heap (Program_world p)))
            _ msgs main p _ Hrun).
  - intros msg q q' out Hq Hstep. eapply columns_empty_step; eauto.
  - constructor.
Qed.

End Empty.

(** X1. No task ever reaches a column: in every state the program reaches
    from [main], every column of every array is empty and has no selected
    item, whatever the messages were (the list widget's own [Update] being
    one that keeps a column's items). *)
Theorem reachable_columns_are_empty
  list_Update textinput_Update textarea_Update (msgs : list Msg) (p : Program) :
  keeps_items list_Update ->
  run list_Update textinput_Update textarea_Update msgs main = Some p ->
  columns_empty (heap (Program_world p))
  /\ forall s i col,
       slice_get (heap (Program_world p)) s i = Some col ->
       list_Items col = [] /\ list_SelectedItem col = None.
Proof.
  intros Hk Hrun.
  pose proof (columns_empty_run _ textinput_Update textarea_Update Hk msgs p Hrun)
    as Hok.
  split; [ exact Hok | ].
  intros s i col Hcol.
  assert (list_Items col = []) by (eapply columns_empty_get; eauto).
  auto using list_SelectedItem_empty.
Qed.

Lemma reachable_columns_are_empty_witness :
  exists p,
    run sample_list_Update sample_textinput_Update sample_textarea_Update
        [WindowSizeMsg 80 24; KeyMsg "n"; KeyMsg "Write spec"; KeyMsg "enter";
         KeyMsg "Core engine"; KeyMsg "enter";
         TaskMsg (NewTask todo "Write spec" "Core engine"); KeyMsg "enter";
         KeyMsg "right"; KeyMsg "d"] main = Some p
    /\ columns_empty (heap (Program_world p)).
Proof.
  eexists. split; [ reflexivity | ].
  apply (reachable_columns_are_empty
           sample_list_Update sample_textinput_Update sample_textarea_Update
           [WindowSizeMsg 80 24; KeyMsg "n"; KeyMsg "Write spec"; KeyMsg "enter";
            KeyMsg "Core engine"; KeyMsg "enter";
            TaskMsg (NewTask todo "Write spec" "Core engine"); KeyMsg "enter";
            KeyMsg "right"; KeyMsg "d"]).
  - exact sample_list_Update_keeps_items.
  - reflexivity.
Defined.

(** ** The board and the heap fit *)

Lemma board_shape_fields h m m' :
  Model_loaded m' = Model_loaded m -> Model_lists m' = Model_lists m ->
  board_shape h m -> board_shape h m'.
Proof. unfold board_shape. intros -> ->. auto. Qed.

Lemma shape_ok_lengths w a h :
  shape_ok {| Program_world := w; Program_model := a |} ->
  length <$> h = length <$> heap w ->
  shape_ok {| Program_world := set_heap h w; Program_model := a |}.
Proof.
  unfold shape_ok. simpl. intros H Hl. destruct a as [m | f].
  - eauto using board_shape_lengths.
  - destruct H as (m & Hr & Hs & Hf). exists m. eauto using board_shape_lengths.
Qed.

Lemma call_Cmd_from_widget c h :
  exists out, call_Cmd (from_widget c) h = Some (out, h).
Proof. destruct c; simpl; eauto. Qed.

Section Shape.

Variable list_Update : Msg -> list_Model -> list_Model * widget_Cmd.
Variable textinput_Update : Msg -> textinput_Model -> textinput_Model * widget_Cmd.
Variable textarea_Update : Msg -> textarea_Model -> textarea_Model * widget_Cmd.

Lemma shape_ok_delegate msg m w r :
  board_shape (heap w) m ->
  Model_delegate list_Update msg m w = Some r ->
  shape_ok {| Program_world := snd r; Program_model := fst (fst r) |}.
Proof.
  intros Hs H.
  destruct (Model_delegate_inv _ _ _ _ _ H) as (col & h1 & _ & Hset & ->).
  simpl. apply (shape_ok_lengths w (IsModel m) h1); [ exact Hs | ].
  eauto using slice_set_lengths.
Qed.

Lemma shape_ok_Update msg p a c w :
  shape_ok p ->
  tea_Update list_Update textinput_Update textarea_Update msg
             (Program_model p) (Program_world p) = Some (a, c, w) ->
  shape_ok {| Program_world := w; Program_model := a |}.
Proof.
  intros Hs Hup. unfold shape_ok in Hs.
  destruct (Program_model p) as [m | f]; simpl in Hup.
  - destruct (Model_Update_cases _ _ _ _ _ _ _ Hup)
      as [(_ & E) | [(_ & E) | [(_ & E) | [(_ & E) | [(_ & E) | [(_ & E) |
          [(W & H & _ & Hl & E) | E]]]]]]].
    + injection E as -> _ ->. eapply board_shape_fields; [ | | exact Hs ]; reflexivity.
    + injection E as -> _ ->. exact Hs.
    + injection E as -> _ ->. exact Hs.
    + rewrite (Form_Update_other textinput_Update textarea_Update) in E
        by discriminate.
      injection E as -> _ ->. exists m. simpl.
      split; [ reflexivity | ]. split; [ exact Hs | ].
      apply Form_delegate_focused.
    + apply (shape_ok_delegate _ _ _ _) in E; [ exact E | ].
      eapply board_shape_fields; [ | | exact Hs ];
        unfold Model_Prev; destruct (Model_focused m =? todo); reflexivity.
    + apply (shape_ok_delegate _ _ _ _) in E; [ exact E | ].
      eapply board_shape_fields; [ | | exact Hs ];
        unfold Model_Next; destruct (Model_focused m =? done); reflexivity.
    + apply (shape_ok_delegate _ _ _ _) in E; [ exact E | ].
      destruct Hs as [(Ht & _) | (_ & _ & Hh)]; [ congruence | ].
      rewrite Hh. left. repeat split.
    + apply (shape_ok_delegate _ _ _ _) in E; [ exact E | exact Hs ].
  - injection Hup as Hup. destruct Hs as (m & Hr & Hs & Hf).
    destruct (Form_Update_cases textinput_Update textarea_Update msg f (Program_world p))
      as [(_ & E) | [(_ & _ & E) | [(_ & _ & E) | (_ & _ & E)]]];
      rewrite E in Hup; injection Hup as <- <- <-; unfold shape_ok; simpl.
    + eauto.
    + eauto.
    + rewrite Hr. exact Hs.
    + exists m. rewrite Form_delegate_focused. auto.
Qed.

Lemma shape_ok_step msg p p' out :
  shape_ok p ->
  step list_Update textinput_Update textarea_Update msg p = Some (p', out) ->
  shape_ok p'.
Proof.
  intros Hs Hstep.
  destruct (step_inv _ _ _ _ _ _ _ Hstep) as (a & c & w & h & Hup & Hcall & ->).
  apply shape_ok_lengths; [ eapply shape_ok_Update; eauto | ].
  eauto using call_Cmd_lengths.
Qed.

Lemma shape_ok_run msgs p :
  run list_Update textinput_Update textarea_Update msgs main = Some p ->
  shape_ok p.
Proof.
  intros Hrun.
  refine (run_invariant list_Update textinput_Update textarea_Update shape_ok
            _ msgs main p _ Hrun).
  - intros msg q q' out Hq Hstep. eapply shape_ok_step; eauto.
  - right. repeat split.
Qed.

Lemma focus_ok_run msgs p :
  run list_Update textinput_Update textarea_Update msgs main = Some p ->
  focus_ok p.
Proof.
  intros Hrun.
  refine (run_invariant list_Update textinput_Update textarea_Update focus_ok
            _ msgs main p focus_ok_main Hrun).
  intros msg q q' out Hq Hstep. eapply focus_ok_step; eauto.
Qed.

(** A message the board hands to its focused column is processed without a
    panic as soon as that column exists. *)
Lemma delegate_step_total msg m w :
  is_Some (slice_get (heap w) (Model_lists m) (Model_focused m)) ->
  is_Some ('(a, cmd, w1) ← Model_delegate list_Update msg m w;
           '(out, h) ← call_Cmd cmd (heap w1);
           Some ({| Program_world := set_heap h w1; Program_model := a |}, out)).
Proof.
  intros [col Hcol].
  destruct (Model_delegate_Some list_Update msg m w col Hcol) as (h1 & _ & ->).
  simpl.
  destruct (call_Cmd_from_widget (snd (list_Update msg col)) h1) as (out & ->).
  simpl. eauto.
Qed.

(** A loaded board with three empty columns and a valid focus processes
    every message without a panic. *)
Lemma loaded_board_step_total msg m w :
  board_shape (heap w) m -> Model_loaded m = true ->
  valid_status (Model_focused m) -> columns_empty (heap w) ->
  is_Some (step list_Update textinput_Update textarea_Update msg
                {| Program_world := w; Program_model := IsModel m |}).
Proof.
  intros Hs Hl Hv He.
  assert (Hcol : forall m', Model_loaded m' = Model_loaded m ->
                            Model_lists m' = Model_lists m ->
                            valid_status (Model_focused m') ->
                            is_Some (slice_get (heap w) (Model_lists m')
                                               (Model_focused m'))).
  { intros m' H1 H2 H3. apply board_shape_columns; [ | congruence | exact H3 ].
    eapply board_shape_fields; [ | | exact Hs ]; assumption. }
  assert (Hhere := Hcol m eq_refl eq_refl Hv).
  assert (Hprev : is_Some (slice_get (heap w) (Model_lists (Model_Prev m))
                                     (Model_focused (Model_Prev m)))).
  { apply Hcol; [ | | apply Model_Prev_valid; exact Hv ];
      unfold Model_Prev; destruct (Model_focused m =? todo); reflexivity. }
  assert (Hnext : is_Some (slice_get (heap w) (Model_lists (Model_Next m))
                                     (Model_focused (Model_Next m)))).
  { apply Hcol; [ | | apply Model_Next_valid; exact Hv ];
      unfold Model_Next; destruct (Model_focused m =? done); reflexivity. }
  unfold step. cbn [tea_Update Program_model Program_world].
  destruct msg as [ | W H | s | t | tag ];
    try (apply delegate_step_total; exact Hhere).
  - unfold Model_Update. rewrite Hl. simpl negb. cbv iota.
    apply delegate_step_total; exact Hhere.
  - unfold Model_Update.
    destruct (String.eqb s "ctrl+c"); [ simpl; eauto | ].
    destruct (String.eqb s "left" || String.eqb s "h");
      [ apply delegate_step_total; exact Hprev | ].
    destruct (String.eqb s "right" || String.eqb s "l");
      [ apply delegate_step_total; exact Hnext | ].
    destruct (String.eqb s "enter").
    { simpl. rewrite MoveToNext_columns_empty by assumption. simpl. eauto. }
    destruct (String.eqb s "d").
    { simpl. rewrite DeleteTask_columns_empty by assumption. simpl. eauto. }
    destruct (String.eqb s "n").
    { cbn [mbind option_bind].
      destruct (Form_Update textinput_Update textarea_Update NilMsg
                  (NewForm (Model_focused m))
                  (models_set form (IsForm (NewForm (Model_focused m)))
                     (models_set model (IsModel m) w))) as [[a c] w1] eqn:E.
      rewrite (Form_Update_other textinput_Update textarea_Update) in E
        by discriminate.
      injection E as <- <- <-. unfold Form_delegate.
      destruct (textinput_Focused (Form_title (NewForm (Model_focused m)))).
      - destruct (textinput_Update NilMsg (Form_title (NewForm (Model_focused m))))
          as [t [tag|]]; simpl; eauto.
      - destruct (textarea_Update NilMsg (Form_description (NewForm (Model_focused m))))
          as [t [tag|]]; simpl; eauto. }
    apply delegate_step_total; exact Hhere.
Qed.

End Shape.

(** ** No panic once the board is loaded *)

Section Loaded.

Variable list_Update : Msg -> list_Model -> list_Model * widget_Cmd.
Variable textinput_Update : Msg -> textinput_Model -> textinput_Model * widget_Cmd.
Variable textarea_Update : Msg -> textarea_Model -> textarea_Model * widget_Cmd.

Lemma past_loading_step msg p p' out :
  past_loading p ->
  step list_Update textinput_Update textarea_Update msg p = Some (p', out) ->
  past_loading p'.
Proof.
  intros Hp Hstep.
  destruct (step_inv _ _ _ _ _ _ _ Hstep) as (a & c & w & h & Hup & _ & ->).
  unfold past_loading in *. simpl. clear Hstep.
  destruct (Program_model p) as [m | f]; simpl in Hup.
  - destruct (Model_Update_cases _ _ _ _ _ _ _ Hup)
      as [(_ & E) | [(_ & E) | [(_ & E) | [(_ & E) | [(_ & E) | [(_ & E) |
          [(W & H & _ & Hl & E) | E]]]]]]];
      try (injection E as -> _ ->; simpl; now auto);
      try (destruct (Model_delegate_inv _ _ _ _ _ E) as (col & h1 & _ & _ & Er);
           injection Er as -> _ ->; simpl; auto).
    + rewrite (Form_Update_other textinput_Update textarea_Update) in E
        by discriminate.
      injection E as -> _ ->. simpl. eauto.
    + unfold Model_Prev. destruct (Model_focused m =? todo); exact Hp.
    + unfold Model_Next. destruct (Model_focused m =? done); exact Hp.
  - injection Hup as Hup. destruct Hp as (m & Hr & Hl).
    destruct (Form_Update_cases textinput_Update textarea_Update msg f (Program_world p))
      as [(_ & E) | [(_ & _ & E) | [(_ & _ & E) | (_ & _ & E)]]];
      rewrite E in Hup; injection Hup as <- <- <-; simpl; eauto.
    rewrite Hr. exact Hl.
Qed.

Hypothesis items_kept : keeps_items list_Update.

Lemma past_loading_step_total msg p :
  shape_ok p -> focus_ok p -> columns_empty (heap (Program_world p)) ->
  past_loading p ->
  is_Some (step list_Update textinput_Update textarea_Update msg p).
Proof.
  intros Hs (Hf & _) He Hp. destruct p as [w [m | f]].
  - apply loaded_board_step_total; assumption.
  - destruct (form_step list_Update textinput_Update textarea_Update msg f w)
      as (a & out & w' & -> & _). eauto.
Qed.

Lemma past_loading_run_total msgs p :
  shape_ok p -> focus_ok p -> columns_empty (heap (Program_world p)) ->
  past_loading p ->
  is_Some (run list_Update textinput_Update textarea_Update msgs p).
Proof.
  revert p. induction msgs as [ | msg rest IH ]; intros p Hs Hf He Hp.
  - simpl. eauto.
  - simpl.
    destruct (past_loading_step_total msg p Hs Hf He Hp) as [[p1 out] Hstep].
    rewrite Hstep. simpl. apply IH.
    + eapply shape_ok_step; eauto.
    + eapply focus_ok_step; eauto.
    + eapply columns_empty_step; eauto.
    + eapply past_loading_step; eauto.
Qed.

End Loaded.

Lemma run_app list_Update textinput_Update textarea_Update msgs1 msgs2 p :
  run list_Update textinput_Update textarea_Update (msgs1 ++ msgs2) p
  = run list_Update textinput_Update textarea_Update msgs1 p
    ≫= run list_Update textinput_Update textarea_Update msgs2.
Proof.
  revert p. induction msgs1 as [ | msg rest IH ]; intros p; simpl.
  - reflexivity.
  - destruct (step list_Update textinput_Update textarea_Update msg p)
      as [[p1 out]|]; simpl; [ apply IH | reflexivity ].
Qed.

(** X2. Once loading is behind (the active board is loaded, or a form is
    open over a loaded board), the program cannot panic any more: from every
    such state reached from [main], every further sequence of messages is
    processed to its end (the list widget's own [Update] being one that
    keeps a column's items). *)
Theorem no_panic_once_loaded
  list_Update textinput_Update textarea_Update (msgs more : list Msg) (p : Program) :
  keeps_items list_Update ->
  run list_Update textinput_Update textarea_Update msgs main = Some p ->
  past_loading p ->
  is_Some (run list_Update textinput_Update textarea_Update more p)
  /\ is_Some (run list_Update textinput_Update textarea_Update (msgs ++ more) main).
Proof.
  intros Hk Hrun Hp.
  assert (Hmore : is_Some (run list_Update textinput_Update textarea_Update more p)).
  { apply past_loading_run_total; try assumption.
    - eapply shape_ok_run; eauto.
    - eapply focus_ok_run; eauto.
    - eapply columns_empty_run; eauto. }
  split; [ exact Hmore | ].
  rewrite run_app, Hrun. exact Hmore.
Qed.

Lemma no_panic_once_loaded_witness :
  is_Some (run sample_list_Update sample_textinput_Update sample_textarea_Update
               ([WindowSizeMsg 80 24; KeyMsg "n"]
                ++ [KeyMsg "a"; KeyMsg "enter"; KeyMsg "enter"; NilMsg;
                    KeyMsg "left"; KeyMsg "enter"; KeyMsg "d"; OtherMsg "tick"])
               main).
Proof.
  refine (proj2 (no_panic_once_loaded
                   sample_list_Update sample_textinput_Update sample_textarea_Update
                   [WindowSizeMsg 80 24; KeyMsg "n"]
                   [KeyMsg "a"; KeyMsg "enter"; KeyMsg "enter"; NilMsg;
                    KeyMsg "left"; KeyMsg "enter"; KeyMsg "d"; OtherMsg "tick"]
                   _ sample_list_Update_keeps_items eq_refl _)).
  eexists. split; reflexivity.
Defined.

(** X3. While a form is the active model of a state reached from [main],
    the registry holds a board whose focus is the form's target status, and
    that status is one of the three values: the task the form would create
    carries the focus of the board that completion makes active again. *)
Theorem form_targets_saved_focus
  list_Update textinput_Update textarea_Update (msgs : list Msg) (p : Program)
  (f : Form) :
  run list_Update textinput_Update textarea_Update msgs main = Some p ->
  Program_model p = IsForm f ->
  exists m,
    models_model (Program_world p) = IsModel m
    /\ Form_focused f = Model_focused m
    /\ Task_status (Form_CreateTask f) = Model_focused m
    /\ valid_status (Form_focused f).
Proof.
  intros Hrun Hf.
  pose proof (shape_ok_run _ _ _ _ _ Hrun) as Hs.
  pose proof (focus_ok_run _ _ _ _ _ Hrun) as (Hv & _).
  unfold shape_ok in Hs. rewrite Hf in Hs, Hv. simpl in Hv.
  destruct Hs as (m & Hr & _ & Ht). exists m. auto.
Qed.

Lemma form_targets_saved_focus_witness :
  exists m,
    IsModel (sample_board done) = IsModel m
    /\ Form_focused (mkForm done (mk_textinput "ab" true) (mk_textarea "" false))
       = Model_focused m.
Proof.
  destruct (form_targets_saved_focus
              sample_list_Update sample_textinput_Update sample_textarea_Update
              [WindowSizeMsg 80 24; KeyMsg "left"; KeyMsg "n"; KeyMsg "a"; KeyMsg "b"]
              _ _ eq_refl eq_refl)
    as (m & Hr & Ht & _).
  exists m. split; [ exact Hr | exact Ht ].
Defined.

(** ** Rendering *)

Section ViewProperties.

Variable list_View : list_Model -> string.
Variable textinput_View : textinput_Model -> string.
Variable textarea_View : textarea_Model -> string.
Variable columnStyle_Render : string -> string.
Variable focusedStyle_Render : string -> string.
Variable JoinHorizontal : list string -> string.
Variable JoinVertical : list string -> string.

Local Abbreviation model_view :=
  (Model_View list_View columnStyle_Render focusedStyle_Render JoinHorizontal).

Lemma Model_View_loaded m h c0 c1 c2 :
  Model_quitting m = false -> Model_loaded m = true ->
  slice_get h (Model_lists m) todo = Some c0 ->
  slice_get h (Model_lists m) inProgress = Some c1 ->
  slice_get h (Model_lists m) done = Some c2 ->
  model_view m h
  = Some (if Model_focused m =? inProgress then
            JoinHorizontal [ columnStyle_Render (list_View c0);
                             focusedStyle_Render (list_View c1);
                             columnStyle_Render (list_View c2) ]
          else if Model_focused m =? done then
            JoinHorizontal [ columnStyle_Render (list_View c0);
                             columnStyle_Render (list_View c1);
                             focusedStyle_Render (list_View c2) ]
          else
            JoinHorizontal [ focusedStyle_Render (list_View c0);
                             columnStyle_Render (list_View c1);
                             columnStyle_Render (list_View c2) ]).
Proof.
  intros Hq Hl H0 H1 H2. unfold Model_View. rewrite Hq, Hl, H0. simpl.
  rewrite H1. simpl. rewrite H2. simpl.
  destruct (Model_focused m =? inProgress); [ reflexivity | ].
  destruct (Model_focused m =? done); reflexivity.
Qed.

Lemma Model_View_None m h :
  model_view m h = None <->
  Model_quitting m = false /\ Model_loaded m = true
  /\ (slice_get h (Model_lists m) todo = None
      \/ slice_get h (Model_lists m) inProgress = None
      \/ slice_get h (Model_lists m) done = None).
Proof.
  unfold Model_View.
  destruct (Model_quitting m); [ split; [ discriminate | intros (? & _); discriminate ] | ].
  destruct (Model_loaded m);
    [ | split; [ discriminate | intros (_ & ? & _); discriminate ] ].
  destruct (slice_get h (Model_lists m) todo) as [c0|]; simpl;
    [ | split; auto ].
  destruct (slice_get h (Model_lists m) inProgress) as [c1|]; simpl;
    [ | split; auto ].
  destruct (slice_get h (Model_lists m) done) as [c2|]; simpl;
    [ | split; auto ].
  split.
  - destruct (Model_focused m =? inProgress); [ discriminate | ].
    destruct (Model_focused m =? done); discriminate.
  - intros (_ & _ & [H | [H | H]]); discriminate.
Qed.

End ViewProperties.

(** X4. In every state the program reaches from [main], [View] of the
    active model returns a string: it never indexes a column that is not
    there. *)
Theorem View_never_panics_when_reachable
  list_View textinput_View textarea_View columnStyle_Render focusedStyle_Render
  JoinHorizontal JoinVertical
  list_Update textinput_Update textarea_Update (msgs : list Msg) (p : Program) :
  run list_Update textinput_Update textarea_Update msgs main = Some p ->
  is_Some (tea_View list_View textinput_View textarea_View columnStyle_Render
                    focusedStyle_Render JoinHorizontal JoinVertical
                    (Program_model p) (heap (Program_world p))).
Proof.
  intros Hrun. pose proof (shape_ok_run _ _ _ _ _ Hrun) as Hs.
  unfold shape_ok in Hs. destruct (Program_model p) as [m | f]; simpl; [ | eauto ].
  destruct (Model_View list_View columnStyle_Render focusedStyle_Render
              JoinHorizontal m (heap (Program_world p))) as [v|] eqn:E; [ eauto | ].
  apply Model_View_None in E. destruct E as (_ & Hl & Hmiss).
  assert (Hcols : forall i, valid_status i ->
            slice_get (heap (Program_world p)) (Model_lists m) i <> None).
  { intros i Hi Hn.
    destruct (board_shape_columns _ _ i Hs Hl Hi) as [c Hc]. congruence. }
  destruct Hmiss as [H | [H | H]]; exfalso; revert H; apply Hcols.
  - left. reflexivity.
  - right; left. reflexivity.
  - right; right. reflexivity.
Qed.

Lemma View_never_panics_when_reachable_witness :
  is_Some (tea_View list_Title textinput_value textarea_value
                    (fun v => v) (String.append "*") (String.concat " | ")
                    (String.concat "/")
                    (IsModel (sample_board inProgress)) empty_heap).
Proof.
  apply (View_never_panics_when_reachable
           list_Title textinput_value textarea_value
           (fun v => v) (String.append "*") (String.concat " | ") (String.concat "/")
           sample_list_Update sample_textinput_Update sample_textarea_Update
           [WindowSizeMsg 80 24; KeyMsg "right"]
           {| Program_world := mkWorld empty_heap (IsModel New) (IsForm (NewForm todo));
              Program_model := IsModel (sample_board inProgress) |}).
  reflexivity.
Defined.

(** X5. On a loaded board that is not quitting and has its three columns,
    [View] joins the three column views in the order To Do, In Progress,
    Done and renders exactly one of them with the focused style: the column
    whose index is the focus when the focus is one of the three status
    values, and the To Do column for any other value of the focus (the
    default branch). *)
Theorem View_highlights_focused_column
  list_View columnStyle_Render focusedStyle_Render JoinHorizontal
  (m : Model) (h : Heap) (c0 c1 c2 : list_Model) :
  Model_quitting m = false -> Model_loaded m = true ->
  slice_get h (Model_lists m) todo = Some c0 ->
  slice_get h (Model_lists m) inProgress = Some c1 ->
  slice_get h (Model_lists m) done = Some c2 ->
  let style (i : status) (v : string) :=
    if i =? Model_focused m then focusedStyle_Render v else columnStyle_Render v in
  (valid_status (Model_focused m) ->
   Model_View list_View columnStyle_Render focusedStyle_Render JoinHorizontal m h
   = Some (JoinHorizontal [ style todo (list_View c0);
                            style inProgress (list_View c1);
                            style done (list_View c2) ]))
  /\ (~ valid_status (Model_focused m) ->
      Model_View list_View columnStyle_Render focusedStyle_Render JoinHorizontal m h
      = Some (JoinHorizontal [ focusedStyle_Render (list_View c0);
                               columnStyle_Render (list_View c1);
                               columnStyle_Render (list_View c2) ])).
Proof.
  intros Hq Hl H0 H1 H2 style.
  rewrite (Model_View_loaded _ _ _ _ m h c0 c1 c2 Hq Hl H0 H1 H2).
  unfold style. split.
  - intros [Hv | [Hv | Hv]]; rewrite Hv; reflexivity.
  - intros Hn.
    destruct (Z.eqb_spec (Model_focused m) inProgress) as [E | _].
    { exfalso. apply Hn. right; left. exact E. }
    destruct (Z.eqb_spec (Model_focused m) done) as [E | _].
    { exfalso. apply Hn. right; right. exact E. }
    reflexivity.
Qed.

Lemma View_highlights_focused_column_witness :
  Model_View list_Title (fun v => v) (String.append "*") (String.concat " | ")
             (sample_board done) empty_heap
  = Some "To Do | In Progress | *Done".
Proof.
  destruct (View_highlights_focused_column
              list_Title (fun v => v) (String.append "*") (String.concat " | ")
              (sample_board done) empty_heap _ _ _
              eq_refl eq_refl eq_refl eq_refl eq_refl) as (Hvalid & _).
  rewrite Hvalid; [ reflexivity | ]. right; right. reflexivity.
Defined.

(** X6. [View] panics exactly on a board that is not quitting, is marked
    loaded, and lacks one of the three columns.  A quitting board renders as
    the empty string and a board that is not loaded as "loading...", whatever
    the heap holds; and the board ctrl+c returns is quitting, so its view is
    empty even though no column exists yet. *)
Theorem View_without_columns
  list_View columnStyle_Render focusedStyle_Render JoinHorizontal
  (m : Model) (h : Heap) :
  (Model_View list_View columnStyle_Render focusedStyle_Render JoinHorizontal m h
   = None <->
   Model_quitting m = false /\ Model_loaded m = true
   /\ (slice_get h (Model_lists m) todo = None
       \/ slice_get h (Model_lists m) inProgress = None
       \/ slice_get h (Model_lists m) done = None))
  /\ (Model_quitting m = true ->
      Model_View list_View columnStyle_Render focusedStyle_Render JoinHorizontal m h
      = Some "")
  /\ (Model_quitting m = false -> Model_loaded m = false ->
      Model_View list_View columnStyle_Render focusedStyle_Render JoinHorizontal m h
      = Some "loading...")
  /\ (forall list_Update textinput_Update textarea_Update w,
      exists m',
        Model_Update list_Update textinput_Update textarea_Update
                     (KeyMsg "ctrl+c") m w = Some (IsModel m', tea_Quit, w)
        /\ Model_View list_View columnStyle_Render focusedStyle_Render
                      JoinHorizontal m' h = Some "").
Proof.
  split; [ apply Model_View_None | ]. split; [ | split ].
  - intros Hq. unfold Model_View. rewrite Hq. reflexivity.
  - intros Hq Hl. unfold Model_View. rewrite Hq, Hl. reflexivity.
  - intros lu tiu tau w. eexists. split; reflexivity.
Qed.

Lemma View_without_columns_witness :
  Model_View list_Title (fun v => v) (String.append "*") (String.concat " | ")
             New [] = Some "loading..."
  /\ Model_View list_Title (fun v => v) (String.append "*") (String.concat " | ")
                (mkModel true todo None false) [] = None.
Proof.
  split.
  - apply (View_without_columns list_Title (fun v => v) (String.append "*")
             (String.concat " | ") New []); reflexivity.
  - apply (View_without_columns list_Title (fun v => v) (String.append "*")
             (String.concat " | ") (mkModel true todo None false) []).
    split; [ reflexivity | ]. split; [ reflexivity | ]. left. reflexivity.
Defined.

(** ** Before the board is loaded *)

Section Unloaded.

Variable list_Update : Msg -> list_Model -> list_Model * widget_Cmd.
Variable textinput_Update : Msg -> textinput_Model -> textinput_Model * widget_Cmd.
Variable textarea_Update : Msg -> textarea_Model -> textarea_Model * widget_Cmd.

Local Abbreviation step_ := (step list_Update textinput_Update textarea_Update).

Lemma Model_delegate_nil msg m w :
  Model_lists m = None -> Model_delegate list_Update msg m w = None.
Proof. intros H. unfold Model_delegate, slice_get. rewrite H. reflexivity. Qed.

Lemma step_delegate_nil msg m m1 w :
  Model_lists m1 = None ->
  Model_Update list_Update textinput_Update textarea_Update msg m w
  = Model_delegate list_Update msg m1 w ->
  step_ msg {| Program_world := w; Program_model := IsModel m |} = None.
Proof.
  intros Hn E. unfold step. simpl. rewrite E, Model_delegate_nil by exact Hn.
  reflexivity.
Qed.

Lemma unloaded_step_None msg m w :
  Model_lists m = None ->
  msg <> KeyMsg "ctrl+c" -> msg <> KeyMsg "n" ->
  (forall W H, msg <> WindowSizeMsg W H) ->
  step_ msg {| Program_world := w; Program_model := IsModel m |} = None.
Proof.
  intros Hn Hq Hf Hw.
  assert (Hprev : Model_lists (Model_Prev m) = None)
    by (unfold Model_Prev; destruct (Model_focused m =? todo); exact Hn).
  assert (Hnext : Model_lists (Model_Next m) = None)
    by (unfold Model_Next; destruct (Model_focused m =? done); exact Hn).
  destruct msg as [ | W H | s | t | tag ];
    try (apply (step_delegate_nil _ m m w Hn); reflexivity).
  - exfalso. apply (Hw W H). reflexivity.
  - destruct (String.eqb_spec s "ctrl+c") as [-> | H1]; [ contradiction | ].
    destruct (String.eqb_spec s "left") as [-> | H2].
    { apply (step_delegate_nil _ m _ w Hprev). reflexivity. }
    destruct (String.eqb_spec s "h") as [-> | H3].
    { apply (step_delegate_nil _ m _ w Hprev). reflexivity. }
    destruct (String.eqb_spec s "right") as [-> | H4].
    { apply (step_delegate_nil _ m _ w Hnext). reflexivity. }
    destruct (String.eqb_spec s "l") as [-> | H5].
    { apply (step_delegate_nil _ m _ w Hnext). reflexivity. }
    destruct (String.eqb_spec s "enter") as [-> | H6].
    { unfold step. simpl. unfold MoveToNext, slice_get. rewrite Hn. reflexivity. }
    destruct (String.eqb_spec s "d") as [-> | H7].
    { unfold step. simpl. unfold DeleteTask, slice_get. rewrite Hn. reflexivity. }
    destruct (String.eqb_spec s "n") as [-> | H8]; [ contradiction | ].
    apply (step_delegate_nil _ m m w Hn).
    unfold Model_Update.
    destruct (String.eqb_spec s "ctrl+c"); [ contradiction | ].
    destruct (String.eqb_spec s "left"); [ contradiction | ].
    destruct (String.eqb_spec s "h"); [ contradiction | ].
    destruct (String.eqb_spec s "right"); [ contradiction | ].
    destruct (String.eqb_spec s "l"); [ contradiction | ].
    destruct (String.eqb_spec s "enter"); [ contradiction | ].
    destruct (String.eqb_spec s "d"); [ contradiction | ].
    destruct (String.eqb_spec s "n"); [ contradiction | ].
    reflexivity.
Qed.

Lemma n_key_step_total m w :
  is_Some (step_ (KeyMsg "n") {| Program_world := w; Program_model := IsModel m |}).
Proof.
  unfold step. cbn [tea_Update Program_model Program_world].
  rewrite Model_Update_n.
  rewrite (Form_Update_other textinput_Update textarea_Update) by discriminate.
  cbn [mbind option_bind]. unfold Form_delegate.
  destruct (textinput_Focused (Form_title (NewForm (Model_focused m)))).
  - destruct (textinput_Update NilMsg (Form_title (NewForm (Model_focused m))))
      as [t [tag|]]; simpl; eauto.
  - destruct (textarea_Update NilMsg (Form_description (NewForm (Model_focused m))))
      as [t [tag|]]; simpl; eauto.
Qed.

Lemma first_resize_step_total W H m w :
  Model_loaded m = false -> valid_status (Model_focused m) ->
  is_Some (step_ (WindowSizeMsg W H)
                 {| Program_world := w; Program_model := IsModel m |}).
Proof.
  intros Hl Hv. unfold step. cbn [tea_Update Program_model Program_world].
  unfold Model_Update. rewrite Hl. simpl negb. cbv iota.
  destruct (initLists_columns W H m (heap w)) as (Hfst & _ & _ & _ & Hcols).
  destruct (Hcols _ Hv) as (col & Hcol & _).
  destruct (initLists W H m (heap w)) as [m1 h1] eqn:E. simpl in Hfst, Hcol.
  subst m1. apply delegate_step_total. simpl. eauto.
Qed.

End Unloaded.

(** X7. On a board that has no columns yet (nil slice, not loaded, focus one
    of the three values: the board of [main]) a message makes the program
    panic unless it is a window-size message, ctrl+c or n: every other key,
    the enter and d keys through their commands, a [nil] message, a task and
    any library message index the nil slice. *)
Theorem unloaded_board_panics
  list_Update textinput_Update textarea_Update (m : Model) (w : World) (msg : Msg) :
  Model_lists m = None -> Model_loaded m = false ->
  valid_status (Model_focused m) ->
  step list_Update textinput_Update textarea_Update msg
       {| Program_world := w; Program_model := IsModel m |} = None
  <-> msg <> KeyMsg "ctrl+c" /\ msg <> KeyMsg "n"
      /\ forall W H, msg <> WindowSizeMsg W H.
Proof.
  intros Hn Hl Hv. split.
  - intros Hstep. repeat split.
    + intros ->. discriminate.
    + intros ->.
      destruct (n_key_step_total list_Update textinput_Update textarea_Update m w)
        as [r Hr].
      congruence.
    + intros W H ->.
      destruct (first_resize_step_total list_Update textinput_Update textarea_Update
                  W H m w Hl Hv) as [r Hr].
      congruence.
  - intros (Hq & Hf & Hw). apply unloaded_step_None; assumption.
Qed.

Lemma unloaded_board_panics_witness :
  step sample_list_Update sample_textinput_Update sample_textarea_Update
       (KeyMsg "right") main = None.
Proof.
  apply (unloaded_board_panics
           sample_list_Update sample_textinput_Update sample_textarea_Update
           New (Program_world main) (KeyMsg "right")).
  - reflexivity.
  - reflexivity.
  - left. reflexivity.
  - split; [ discriminate | ]. split; discriminate.
Defined.

(** ** The form, message by message *)

Section FormSteps.

Variable list_Update : Msg -> list_Model -> list_Model * widget_Cmd.
Variable textinput_Update : Msg -> textinput_Model -> textinput_Model * widget_Cmd.
Variable textarea_Update : Msg -> textarea_Model -> textarea_Model * widget_Cmd.

(** What one message does to the form that processes it. *)
Lemma form_step_cases msg f w p1 out :
  step list_Update textinput_Update textarea_Update msg
       {| Program_world := w; Program_model := IsForm f |} = Some (p1, out) ->
  models_model (Program_world p1) = models_model w
  /\ (Program_model p1 = models_model w
      \/ exists f1,
           Program_model p1 = IsForm f1
           /\ Form_focused f1 = Form_focused f
           /\ (textinput_Focused (Form_title f) = false ->
               Form_title f1 = Form_title f)).
Proof.
  unfold step. simpl.
  destruct (Form_Update_cases textinput_Update textarea_Update msg f w)
    as [(_ & E) | [(_ & Hf & E) | [(_ & _ & E) | (_ & _ & E)]]]; rewrite E; simpl.
  - intros H. injection H as <- _. simpl. split; [ reflexivity | ].
    right. exists f. auto.
  - intros H. injection H as <- _. simpl. split; [ reflexivity | ].
    right. eexists. split; [ reflexivity | ]. split; [ reflexivity | ].
    intros Hn. congruence.
  - intros H. injection H as <- _. simpl. split; [ reflexivity | ]. left. reflexivity.
  - destruct (call_Cmd (snd (Form_delegate textinput_Update textarea_Update msg f))
                       (heap w)) as [[o h]|]; simpl; [ | discriminate ].
    intros H. injection H as <- _. simpl. split; [ reflexivity | ].
    right. eexists. split; [ reflexivity | ].
    split; [ apply Form_delegate_focused | ].
    intros Hn. unfold Form_delegate. rewrite Hn.
    destruct (textarea_Update msg (Form_description f)). reflexivity.
Qed.

Lemma while_form_from_board p msgs p' m :
  while_form list_Update textinput_Update textarea_Update p msgs p' ->
  Program_model p = IsModel m -> p' = p.
Proof.
  intros H. destruct H as [ p | p f msg p1 out msgs p2 Hf Hstep Hrest ].
  - reflexivity.
  - intros Hm. congruence.
Qed.

Lemma while_form_fixed p msgs p' :
  while_form list_Update textinput_Update textarea_Update p msgs p' ->
  forall f m f',
    Program_model p = IsForm f ->
    models_model (Program_world p) = IsModel m ->
    Program_model p' = IsForm f' ->
    Form_focused f' = Form_focused f
    /\ (textinput_Focused (Form_title f) = false ->
        textinput_Focused (Form_title f') = false
        /\ Form_title f' = Form_title f).
Proof.
  induction 1 as [ p | p f0 msg p1 out msgs p2 Hf0 Hstep Hrest IH ];
    intros f m f' Hf Hm Hf'.
  - assert (f' = f) by congruence. subst f'. auto.
  - destruct p as [w a]. simpl in Hf, Hm, Hf0. subst a.
    injection Hf as ->.
    destruct (form_step_cases msg f w p1 out Hstep) as (Hr & [Hback | Hform]).
    + rewrite Hm in Hback.
      rewrite (while_form_from_board _ _ _ _ Hrest Hback) in Hf'. congruence.
    + destruct Hform as (f1 & H1 & Ht & Htitle).
      destruct (IH f1 m f' H1 (eq_trans Hr Hm) Hf') as (IHt & IHtitle).
      split; [ congruence | ].
      intros Hn. specialize (Htitle Hn).
      destruct IHtitle as (Hn' & Heq); [ rewrite Htitle; exact Hn | ].
      split; [ exact Hn' | congruence ].
Qed.

End FormSteps.

(** X8. A form opened over a board that has no columns yet cannot be
    completed safely: however many messages the form processes (window-size
    messages included, which never reach the board), the board that becomes
    active on completion is the saved one, still without columns, and the
    delivery of the created task makes the program panic. *)
Theorem form_over_unloaded_board_cannot_complete
  list_Update textinput_Update textarea_Update
  (p : Program) (f : Form) (m : Model) (msgs : list Msg) (p' : Program) (m' : Model) :
  Program_model p = IsForm f ->
  models_model (Program_world p) = IsModel m ->
  Model_lists m = None ->
  while_form list_Update textinput_Update textarea_Update p msgs p' ->
  Program_model p' = IsModel m' ->
  m' = m
  /\ forall t, step list_Update textinput_Update textarea_Update (TaskMsg t) p' = None.
Proof.
  intros Hf Hm Hn Hrun Hm'.
  destruct (while_form_frame _ _ _ _ _ _ Hrun) as (_ & _ & [-> | [(f' & Hf') | Hback]]).
  - congruence.
  - congruence.
  - assert (m' = m) by congruence. subst m'. split; [ reflexivity | ].
    intros t. destruct p' as [w' a']. simpl in Hm'. subst a'.
    apply unloaded_step_None; [ exact Hn | discriminate | discriminate | ].
    intros W H. discriminate.
Qed.

Lemma form_opened_before_load_run :
  while_form sample_list_Update sample_textinput_Update sample_textarea_Update
    {| Program_world := mkWorld [] (IsModel New) (IsForm (NewForm todo));
       Program_model := IsForm (NewForm todo) |}
    [WindowSizeMsg 80 24; KeyMsg "a"; KeyMsg "enter"; KeyMsg "enter"]
    {| Program_world :=
         mkWorld [] (IsModel New)
                 (IsForm (mkForm todo (mk_textinput "a" false) (mk_textarea "" true)));
       Program_model := IsModel New |}.
Proof.
  eapply while_form_cons; [ reflexivity | reflexivity | ].
  eapply while_form_cons; [ reflexivity | reflexivity | ].
  eapply while_form_cons; [ reflexivity | reflexivity | ].
  eapply while_form_cons; [ reflexivity | reflexivity | ].
  apply while_form_nil.
Qed.

Lemma form_over_unloaded_board_cannot_complete_witness :
  run sample_list_Update sample_textinput_Update sample_textarea_Update
      [KeyMsg "n"] main
  = Some {| Program_world := mkWorld [] (IsModel New) (IsForm (NewForm todo));
            Program_model := IsForm (NewForm todo) |}
  /\ step sample_list_Update sample_textinput_Update sample_textarea_Update
          (TaskMsg (NewTask todo "a" ""))
          {| Program_world :=
               mkWorld [] (IsModel New)
                 (IsForm (mkForm todo (mk_textinput "a" false) (mk_textarea "" true)));
             Program_model := IsModel New |}
     = None.
Proof.
  split; [ reflexivity | ].
  apply (form_over_unloaded_board_cannot_complete
           sample_list_Update sample_textinput_Update sample_textarea_Update
           (mkProgram (mkWorld [] (IsModel New) (IsForm (NewForm todo)))
                      (IsForm (NewForm todo)))
           (NewForm todo) New
           [WindowSizeMsg 80 24; KeyMsg "a"; KeyMsg "enter"; KeyMsg "enter"]
           (mkProgram
              (mkWorld [] (IsModel New)
                 (IsForm (mkForm todo (mk_textinput "a" false) (mk_textarea "" true))))
              (IsModel New))
           New eq_refl eq_refl eq_refl
           form_opened_before_load_run eq_refl).
Defined.

(** X9. While a form stays the active model its target status never
    changes, and once the title field has lost the focus (after the first
    confirm) it never gets it back and the title text can no longer be
    edited: whatever messages follow, the title is the one confirmed. *)
Theorem title_is_fixed_after_first_confirm
  list_Update textinput_Update textarea_Update
  (p : Program) (msgs : list Msg) (p' : Program) (f f' : Form) (m : Model) :
  while_form list_Update textinput_Update textarea_Update p msgs p' ->
  Program_model p = IsForm f ->
  models_model (Program_world p) = IsModel m ->
  Program_model p' = IsForm f' ->
  Form_focused f' = Form_focused f
  /\ (textinput_Focused (Form_title f) = false ->
      textinput_Focused (Form_title f') = false
      /\ Form_title f' = Form_title f).
Proof.
  intros Hrun Hf Hm Hf'. eapply while_form_fixed; eauto.
Qed.

Lemma title_typed_after_confirm_run :
  while_form sample_list_Update sample_textinput_Update sample_textarea_Update
    {| Program_world := mkWorld empty_heap (IsModel (sample_board done))
                                (IsForm (NewForm done));
       Program_model :=
         IsForm (mkForm done (mk_textinput "ab" false) (mk_textarea "" true)) |}
    [KeyMsg "c"; WindowSizeMsg 80 24; KeyMsg "d"; KeyMsg "left"]
    {| Program_world := mkWorld empty_heap (IsModel (sample_board done))
                                (IsForm (NewForm done));
       Program_model :=
         IsForm (mkForm done (mk_textinput "ab" false) (mk_textarea "cdleft" true)) |}.
Proof.
  eapply while_form_cons; [ reflexivity | reflexivity | ].
  eapply while_form_cons; [ reflexivity | reflexivity | ].
  eapply while_form_cons; [ reflexivity | reflexivity | ].
  eapply while_form_cons; [ reflexivity | reflexivity | ].
  apply while_form_nil.
Qed.

Lemma title_is_fixed_after_first_confirm_witness :
  Form_focused (mkForm done (mk_textinput "ab" false) (mk_textarea "cdleft" true))
  = done
  /\ Form_title (mkForm done (mk_textinput "ab" false) (mk_textarea "cdleft" true))
     = mk_textinput "ab" false.
Proof.
  destruct (title_is_fixed_after_first_confirm
              sample_list_Update sample_textinput_Update sample_textarea_Update
              (mkProgram
                 (mkWorld empty_heap (IsModel (sample_board done))
                          (IsForm (NewForm done)))
                 (IsForm (mkForm done (mk_textinput "ab" false) (mk_textarea "" true))))
              [KeyMsg "c"; WindowSizeMsg 80 24; KeyMsg "d"; KeyMsg "left"]
              (mkProgram
                 (mkWorld empty_heap (IsModel (sample_board done))
                          (IsForm (NewForm done)))
                 (IsForm (mkForm done (mk_textinput "ab" false)
                                 (mk_textarea "cdleft" true))))
              (mkForm done (mk_textinput "ab" false) (mk_textarea "" true))
              (mkForm done (mk_textinput "ab" false) (mk_textarea "cdleft" true))
              (sample_board done)
              title_typed_after_confirm_run eq_refl eq_refl eq_refl)
    as (Ht & Htitle).
  split; [ exact Ht | ]. apply Htitle. reflexivity.
Defined.

(** ** Keys on the board *)

Section BoardKeys.

Variable list_Update : Msg -> list_Model -> list_Model * widget_Cmd.
Variable textinput_Update : Msg -> textinput_Model -> textinput_Model * widget_Cmd.
Variable textarea_Update : Msg -> textarea_Model -> textarea_Model * widget_Cmd.

(** A message handed to the focused column replaces that column by what its
    own [Update] returns and leaves every other column alone. *)
Lemma Model_delegate_effect msg m w col :
  slice_get (heap w) (Model_lists m) (Model_focused m) = Some col ->
  exists h1,
    Model_delegate list_Update msg m w
    = Some (IsModel m, from_widget (snd (list_Update msg col)), set_heap h1 w)
    /\ slice_get h1 (Model_lists m) (Model_focused m)
       = Some (fst (list_Update msg col))
    /\ forall s j, s <> Model_lists m \/ j <> Model_focused m ->
                   slice_get h1 s j = slice_get (heap w) s j.
Proof.
  intros Hcol.
  destruct (Model_delegate_Some list_Update msg m w col Hcol) as (h1 & Hset & Hd).
  exists h1. split; [ exact Hd | ].
  destruct (slice_get_inv _ _ _ _ Hcol) as (a & arr & Hs & Ha & Hi & Hc).
  destruct (slice_set_inv _ _ _ _ _ Hset) as (a' & arr' & Hs' & Ha' & _ & ->).
  assert (a' = a) by congruence. subst a'.
  assert (arr' = arr) by congruence. subst arr'.
  split.
  - rewrite Hs. apply slice_get_write_eq; auto. eapply lookup_lt_Some; eauto.
  - intros s j Hne. apply slice_get_write_ne; auto. rewrite <- Hs. exact Hne.
Qed.

Lemma Model_Next_lists m : Model_lists (Model_Next m) = Model_lists m.
Proof. unfold Model_Next. destruct (Model_focused m =? done); reflexivity. Qed.

Lemma Model_Prev_lists m : Model_lists (Model_Prev m) = Model_lists m.
Proof. unfold Model_Prev. destruct (Model_focused m =? todo); reflexivity. Qed.

End BoardKeys.

(** X10. The keys that move the focus are also handed to a column, and the
    column that gets them is the one that receives the focus, not the one
    that had it: on "right" or "l" the active board becomes [Next] of the
    board, the column at the new focus is replaced by what its own [Update]
    makes of the key, and every other column (the one that had the focus
    included) is untouched; likewise with [Prev] on "left" or "h". *)
Theorem focus_keys_reach_the_new_column
  list_Update textinput_Update textarea_Update (m : Model) (w : World) :
  (forall s col,
      s = "right" \/ s = "l" ->
      slice_get (heap w) (Model_lists m) (Model_focused (Model_Next m)) = Some col ->
      exists h1,
        Model_Update list_Update textinput_Update textarea_Update (KeyMsg s) m w
        = Some (IsModel (Model_Next m),
                from_widget (snd (list_Update (KeyMsg s) col)), set_heap h1 w)
        /\ slice_get h1 (Model_lists m) (Model_focused (Model_Next m))
           = Some (fst (list_Update (KeyMsg s) col))
        /\ forall s' j,
             s' <> Model_lists m \/ j <> Model_focused (Model_Next m) ->
             slice_get h1 s' j = slice_get (heap w) s' j)
  /\ (forall s col,
      s = "left" \/ s = "h" ->
      slice_get (heap w) (Model_lists m) (Model_focused (Model_Prev m)) = Some col ->
      exists h1,
        Model_Update list_Update textinput_Update textarea_Update (KeyMsg s) m w
        = Some (IsModel (Model_Prev m),
                from_widget (snd (list_Update (KeyMsg s) col)), set_heap h1 w)
        /\ slice_get h1 (Model_lists m) (Model_focused (Model_Prev m))
           = Some (fst (list_Update (KeyMsg s) col))
        /\ forall s' j,
             s' <> Model_lists m \/ j <> Model_focused (Model_Prev m) ->
             slice_get h1 s' j = slice_get (heap w) s' j).
Proof.
  split; intros s col Hs Hcol.
  - rewrite <- (Model_Next_lists m) in Hcol |- *.
    destruct (Model_delegate_effect list_Update (KeyMsg s) (Model_Next m) w col Hcol)
      as (h1 & Hd & Hhere & Hframe).
    exists h1. split; [ | split; assumption ].
    destruct Hs as [-> | ->]; exact Hd.
  - rewrite <- (Model_Prev_lists m) in Hcol |- *.
    destruct (Model_delegate_effect list_Update (KeyMsg s) (Model_Prev m) w col Hcol)
      as (h1 & Hd & Hhere & Hframe).
    exists h1. split; [ | split; assumption ].
    destruct Hs as [-> | ->]; exact Hd.
Qed.

Lemma focus_keys_reach_the_new_column_witness :
  exists h1,
    Model_Update sample_list_Update sample_textinput_Update sample_textarea_Update
                 (KeyMsg "l") (sample_board done)
                 (mkWorld one_task_heap (IsModel New) (IsForm (NewForm todo)))
    = Some (IsModel (sample_board todo), NilCmd,
            set_heap h1 (mkWorld one_task_heap (IsModel New) (IsForm (NewForm todo))))
    /\ slice_get h1 (Some 0%nat) done = slice_get one_task_heap (Some 0%nat) done.
Proof.
  destruct (focus_keys_reach_the_new_column
              sample_list_Update sample_textinput_Update sample_textarea_Update
              (sample_board done)
              (mkWorld one_task_heap (IsModel New) (IsForm (NewForm todo))))
    as (Hright & _).
  destruct (Hright "l" _ (or_intror eq_refl) eq_refl) as (h1 & Hup & _ & Hframe).
  exists h1. split; [ exact Hup | ].
  apply Hframe. right. discriminate.
Defined.

(** X11. When the two board commands panic: [DeleteTask] exactly when the
    board has no column at its focus; [MoveToNext] exactly then, or when the
    focused column has a selected task and there is no column at the task's
    advanced status (the task is looked up by its own status field, whatever
    column it sits in). *)
Theorem board_commands_panic_iff (m : Model) (h : Heap) :
  (DeleteTask m h = None <->
   slice_get h (Model_lists m) (Model_focused m) = None)
  /\ (MoveToNext m h = None <->
      slice_get h (Model_lists m) (Model_focused m) = None
      \/ exists col t,
           slice_get h (Model_lists m) (Model_focused m) = Some col
           /\ list_SelectedItem col = Some t
           /\ slice_get h (Model_lists m) (Task_status (Task_Next t)) = None).
Proof.
  split.
  - destruct (slice_get h (Model_lists m) (Model_focused m)) as [col|] eqn:Hcol.
    + split; [ | discriminate ].
      destruct (list_SelectedItem col) as [t|] eqn:Hsel.
      * destruct (DeleteTask_selected m h col t Hcol Hsel) as (? & ? & _ & _ & _ & _ & ->).
        discriminate.
      * rewrite (DeleteTask_unselected m h col Hcol Hsel). discriminate.
    + split; [ intros _; reflexivity | ]. intros _. unfold DeleteTask. rewrite Hcol.
      reflexivity.
  - destruct (slice_get h (Model_lists m) (Model_focused m)) as [col|] eqn:Hcol.
    + destruct (list_SelectedItem col) as [t|] eqn:Hsel.
      * destruct (slice_get h (Model_lists m) (Task_status (Task_Next t)))
          as [tgt|] eqn:Htgt.
        -- destruct (MoveToNext_selected m h col t Hcol Hsel)
             as (? & ? & _ & _ & _ & _ & ->); [ rewrite Htgt; eauto | ].
           split; [ discriminate | ].
           intros [H | (col' & t' & Hc' & Hs' & Ht')]; [ discriminate | ].
           assert (col' = col) by congruence. subst col'.
           assert (t' = t) by congruence. subst t'. congruence.
        -- split; [ intros _; right; eauto | ]. intros _.
           destruct (slice_get_inv _ _ _ _ Hcol) as (a & arr & Hs & Ha & Hi & Hc).
           destruct (slice_set_after_get _ _ _ _
                       (list_RemoveItem (list_Index col) col) Hcol)
             as (a' & arr' & Hs' & Ha' & Hset).
           assert (a' = a) by congruence. subst a'.
           assert (arr' = arr) by congruence. subst arr'.
           unfold MoveToNext. rewrite Hcol. simpl. rewrite Hsel, Hset. simpl.
           rewrite slice_get_write_ne; auto.
           ++ rewrite Htgt. reflexivity.
           ++ right. intros E. rewrite E in Htgt. congruence.
      * rewrite (MoveToNext_unselected m h col Hcol Hsel).
        split; [ discriminate | ].
        intros [H | (col' & t' & Hc' & Hs' & _)]; [ discriminate | congruence ].
    + split; [ auto | ]. intros _. unfold MoveToNext. rewrite Hcol. reflexivity.
Qed.

Lemma board_commands_panic_iff_witness :
  MoveToNext (sample_board todo)
             (alter (alter (list_InsertItem 0 (NewTask 7 "stray" "")) 0%nat) 0%nat
                    empty_heap)
  = None
  /\ DeleteTask New [] = None.
Proof.
  split.
  - apply (proj2 (board_commands_panic_iff (sample_board todo) _)). right.
    eexists _, _. split; [ reflexivity | ]. split; reflexivity.
  - apply (proj1 (board_commands_panic_iff New [])). reflexivity.
Defined.

(** X12. With the focused column present, the d key never changes the
    active board (its focus included) and returns the [nil] message; the
    heap it leaves has the focused column without its selected task, or as
    it was when nothing is selected, and every other column as before: the
    command acts on a copy of the board, yet the removal is seen by the
    active board, which shares the column array. *)
Theorem d_key_deletes_in_shared_columns
  list_Update textinput_Update textarea_Update
  (m : Model) (w : World) (col : list_Model) :
  slice_get (heap w) (Model_lists m) (Model_focused m) = Some col ->
  exists h1,
    step list_Update textinput_Update textarea_Update (KeyMsg "d")
         {| Program_world := w; Program_model := IsModel m |}
    = Some ({| Program_world := set_heap h1 w; Program_model := IsModel m |}, NilMsg)
    /\ slice_get h1 (Model_lists m) (Model_focused m)
       = Some (match list_SelectedItem col with
               | Some _ => list_RemoveItem (list_Index col) col
               | None => col
               end)
    /\ forall s j, s <> Model_lists m \/ j <> Model_focused m ->
                   slice_get h1 s j = slice_get (heap w) s j.
Proof.
  intros Hcol. unfold step. simpl.
  destruct (list_SelectedItem col) as [t|] eqn:Hsel.
  - destruct (DeleteTask_selected m (heap w) col t Hcol Hsel)
      as (a & arr & Hs & Ha & Hi & Hc & ->).
    simpl. eexists. split; [ reflexivity | ]. split.
    + rewrite Hs. apply slice_get_write_eq; auto. eapply lookup_lt_Some; eauto.
    + intros s j Hne. apply slice_get_write_ne; auto. rewrite <- Hs. exact Hne.
  - rewrite (DeleteTask_unselected m (heap w) col Hcol Hsel). simpl.
    eexists. split; [ reflexivity | ]. auto.
Qed.

Lemma d_key_deletes_in_shared_columns_witness :
  step sample_list_Update sample_textinput_Update sample_textarea_Update (KeyMsg "d")
       {| Program_world := mkWorld one_task_heap (IsModel New) (IsForm (NewForm todo));
          Program_model := IsModel (sample_board todo) |}
  = Some ({| Program_world := mkWorld empty_heap (IsModel New) (IsForm (NewForm todo));
             Program_model := IsModel (sample_board todo) |}, NilMsg).
Proof.
  destruct (d_key_deletes_in_shared_columns
              sample_list_Update sample_textinput_Update sample_textarea_Update
              (sample_board todo)
              (mkWorld one_task_heap (IsModel New) (IsForm (NewForm todo)))
              _ eq_refl) as (h1 & Hstep & _).
  rewrite Hstep. vm_compute in Hstep. injection Hstep as <-. reflexivity.
Defined.

(** X13. On a board the enter key has exactly the effect of the d key,
    whenever the focused column is present and, if it has a selected task, a
    column exists at the task's advanced status: both leave the same program
    state and return the same message. *)
Theorem enter_key_acts_like_d_key
  list_Update textinput_Update textarea_Update
  (m : Model) (w : World) (col : list_Model) :
  slice_get (heap w) (Model_lists m) (Model_focused m) = Some col ->
  (forall t, list_SelectedItem col = Some t ->
             is_Some (slice_get (heap w) (Model_lists m) (Task_status (Task_Next t)))) ->
  step list_Update textinput_Update textarea_Update (KeyMsg "enter")
       {| Program_world := w; Program_model := IsModel m |}
  = step list_Update textinput_Update textarea_Update (KeyMsg "d")
         {| Program_world := w; Program_model := IsModel m |}
  /\ is_Some (step list_Update textinput_Update textarea_Update (KeyMsg "enter")
                   {| Program_world := w; Program_model := IsModel m |}).
Proof.
  intros Hcol Htgt. unfold step. simpl.
  destruct (list_SelectedItem col) as [t|] eqn:Hsel.
  - destruct (MoveToNext_selected m (heap w) col t Hcol Hsel (Htgt t eq_refl))
      as (a & arr & Hs & Ha & _ & _ & ->).
    destruct (DeleteTask_selected m (heap w) col t Hcol Hsel)
      as (a' & arr' & Hs' & Ha' & _ & _ & ->).
    assert (a' = a) by congruence. subst a'.
    assert (arr' = arr) by congruence. subst arr'.
    simpl. eauto.
  - rewrite (MoveToNext_unselected m (heap w) col Hcol Hsel),
            (DeleteTask_unselected m (heap w) col Hcol Hsel).
    simpl. eauto.
Qed.

Lemma enter_key_acts_like_d_key_witness :
  step sample_list_Update sample_textinput_Update sample_textarea_Update
       (KeyMsg "enter")
       {| Program_world := mkWorld one_task_heap (IsModel New) (IsForm (NewForm todo));
          Program_model := IsModel (sample_board todo) |}
  = step sample_list_Update sample_textinput_Update sample_textarea_Update
         (KeyMsg "d")
         {| Program_world := mkWorld one_task_heap (IsModel New) (IsForm (NewForm todo));
            Program_model := IsModel (sample_board todo) |}.
Proof.
  apply (enter_key_acts_like_d_key
           sample_list_Update sample_textinput_Update sample_textarea_Update
           (sample_board todo)
           (mkWorld one_task_heap (IsModel New) (IsForm (NewForm todo)))
           (list_InsertItem 0 sample_task
              (list_set_Title "To Do" (list_SetShowHelp false (list_New [] 20 12))))).
  - reflexivity.
  - intros t Ht. vm_compute in Ht. injection Ht as <-. eexists. reflexivity.
Defined.

(** ** Column sizes *)

Lemma list_RemoveItem_size index l :
  list_width (list_RemoveItem index l) = list_width l
  /\ list_height (list_RemoveItem index l) = list_height l.
Proof.
  unfold list_RemoveItem.
  destruct ((0 <=? index) && (index <? Z.of_nat (length (list_items l))));
    split; reflexivity.
Qed.

Lemma columns_sized_get W H h s i col :
  columns_sized W H h -> slice_get h s i = Some col ->
  list_width col = W ÷ divisor /\ list_height col = H ÷ 2.
Proof.
  intros Hok Hget.
  destruct (slice_get_inv _ _ _ _ Hget) as (a & arr & _ & Ha & _ & Hc).
  eapply (Forall_lookup_1 (fun col => list_width col = W ÷ divisor
                                      /\ list_height col = H ÷ 2));
    [ | exact Hc ].
  eapply Forall_lookup_1; [ exact Hok | exact Ha ].
Qed.

Lemma columns_sized_set W H h s i col v h' :
  columns_sized W H h -> slice_get h s i = Some col ->
  list_width v = list_width col -> list_height v = list_height col ->
  slice_set h s i v = Some h' ->
  columns_sized W H h'.
Proof.
  intros Hok Hget Hw Hh Hset.
  destruct (columns_sized_get _ _ _ _ _ _ Hok Hget) as (Hcw & Hch).
  destruct (slice_set_inv _ _ _ _ _ Hset) as (a & arr & _ & Ha & _ & ->).
  apply Forall_insert; [ exact Hok | ].
  apply Forall_insert; [ | split; congruence ].
  eapply Forall_lookup_1; [ exact Hok | exact Ha ].
Qed.

Lemma columns_sized_call_Cmd W H c h out h' :
  columns_sized W H h -> call_Cmd c h = Some (out, h') -> columns_sized W H h'.
Proof.
  intros Hok Hc. destruct c; simpl in Hc; try (injection Hc as _ <-; exact Hok).
  - unfold MoveToNext in Hc.
    destruct (slice_get h (Model_lists m) (Model_focused m)) as [col|] eqn:Hcol;
      simpl in Hc; [ | discriminate ].
    destruct (list_SelectedItem col) as [t|].
    + destruct (slice_set h (Model_lists m) (Model_focused m) _) as [h1|] eqn:Hset;
        simpl in Hc; [ | discriminate ].
      destruct (slice_get h1 (Model_lists m) (Task_status (Task_Next t)));
        simpl in Hc; [ | discriminate ].
      injection Hc as _ <-.
      eapply columns_sized_set; [ exact Hok | exact Hcol | | | exact Hset ];
        apply list_RemoveItem_size.
    + simpl in Hc. injection Hc as _ <-. exact Hok.
  - unfold DeleteTask in Hc.
    destruct (slice_get h (Model_lists m) (Model_focused m)) as [col|] eqn:Hcol;
      simpl in Hc; [ | discriminate ].
    destruct (list_SelectedItem col) as [t|].
    + destruct (slice_set h (Model_lists m) (Model_focused m) _) as [h1|] eqn:Hset;
        simpl in Hc; [ | discriminate ].
      injection Hc as _ <-.
      eapply columns_sized_set; [ exact Hok | exact Hcol | | | exact Hset ];
        apply list_RemoveItem_size.
    + simpl in Hc. injection Hc as _ <-. exact Hok.
Qed.

Section Sizes.

Variable list_Update : Msg -> list_Model -> list_Model * widget_Cmd.
Variable textinput_Update : Msg -> textinput_Model -> textinput_Model * widget_Cmd.
Variable textarea_Update : Msg -> textarea_Model -> textarea_Model * widget_Cmd.

Hypothesis size_kept : keeps_size list_Update.

Lemma columns_sized_delegate W H msg m w r :
  columns_sized W H (heap w) ->
  Model_delegate list_Update msg m w = Some r ->
  columns_sized W H (heap (snd r)).
Proof.
  intros Hok Hd.
  destruct (Model_delegate_inv _ _ _ _ _ Hd) as (col & h1 & Hcol & Hset & ->).
  simpl. eapply columns_sized_set; [ exact Hok | exact Hcol | | | exact Hset ];
    apply size_kept.
Qed.

Lemma columns_sized_step W H msg p p' out :
  past_loading p ->
  columns_sized W H (heap (Program_world p)) ->
  step list_Update textinput_Update textarea_Update msg p = Some (p', out) ->
  columns_sized W H (heap (Program_world p')).
Proof.
  intros Hp Hok Hstep.
  destruct (step_inv _ _ _ _ _ _ _ Hstep) as (a & c & w & h & Hup & Hcall & ->).
  simpl. eapply columns_sized_call_Cmd; [ | exact Hcall ].
  unfold past_loading in Hp.
  destruct (Program_model p) as [m | f]; simpl in Hup.
  - destruct (Model_Update_cases _ _ _ _ _ _ _ Hup)
      as [(_ & E) | [(_ & E) | [(_ & E) | [(_ & E) | [(_ & E) | [(_ & E) |
          [(W' & H' & _ & Hl & E) | E]]]]]]].
    + injection E as _ _ ->. exact Hok.
    + injection E as _ _ ->. exact Hok.
    + injection E as _ _ ->. exact Hok.
    + change w with (snd (a, c, w)). rewrite E, Form_Update_heap. exact Hok.
    + apply (columns_sized_delegate _ _ _ _ _ _ Hok E).
    + apply (columns_sized_delegate _ _ _ _ _ _ Hok E).
    + congruence.
    + apply (columns_sized_delegate _ _ _ _ _ _ Hok E).
  - injection Hup as Hup. change w with (snd (a, c, w)). rewrite <- Hup.
    rewrite Form_Update_heap. exact Hok.
Qed.

Lemma columns_sized_run W H msgs p p' :
  past_loading p ->
  columns_sized W H (heap (Program_world p)) ->
  run list_Update textinput_Update textarea_Update msgs p = Some p' ->
  columns_sized W H (heap (Program_world p')).
Proof.
  revert p. induction msgs as [ | msg rest IH ]; intros p Hp Hok Hrun.
  - injection Hrun as <-. exact Hok.
  - simpl in Hrun.
    destruct (step list_Update textinput_Update textarea_Update msg p)
      as [[p1 out]|] eqn:E; simpl in Hrun; [ | discriminate ].
    eapply IH; [ | | exact Hrun ].
    + eapply past_loading_step; eauto.
    + eapply columns_sized_step; eauto.
Qed.

Lemma columns_sized_initLists W H m :
  columns_sized W H (snd (initLists W H m [])).
Proof. unfold initLists, slice_alloc. simpl. repeat constructor. Qed.

Lemma first_resize_sized W H p1 out :
  step list_Update textinput_Update textarea_Update (WindowSizeMsg W H) main
  = Some (p1, out) ->
  past_loading p1 /\ columns_sized W H (heap (Program_world p1)).
Proof.
  intros Hstep.
  destruct (step_inv _ _ _ _ _ _ _ Hstep) as (a & c & w & h & Hup & Hcall & ->).
  change (Program_model main) with (IsModel New) in Hup. cbn [tea_Update] in Hup.
  destruct (Model_Update_cases _ _ _ _ _ _ _ Hup)
    as [(E0 & _) | [(E0 & _) | [(E0 & _) | [(E0 & _) | [([E0 | E0] & _) |
        [([E0 | E0] & _) | [(W' & H' & E0 & _ & E) | E]]]]]]];
    try discriminate.
  injection E0 as <- <-.
  assert (Hs : columns_sized W H (heap (snd (a, c, w)))).
    { eapply columns_sized_delegate; [ | exact E ].
      exact (columns_sized_initLists W H New). }
    destruct (Model_delegate_inv _ _ _ _ _ E) as (col & h1 & _ & _ & Er).
    injection Er as -> _ ->. simpl in Hs, Hcall |- *.
    split; [ reflexivity | ].
    eapply columns_sized_call_Cmd; [ exact Hs | exact Hcall ].
Qed.

End Sizes.

(** X14. The columns are sized once and for all: when the first message the
    program receives is a window-size message of width [W] and height [H],
    then after any further messages (later window-size messages included)
    there is exactly one column array and every column has width [W / 4]
    and height [H / 2], both truncated towards zero (the list widget's own
    [Update] being one that does not resize a column). *)
Theorem columns_keep_their_first_size
  list_Update textinput_Update textarea_Update
  (W H : Z) (msgs : list Msg) (p : Program) :
  keeps_size list_Update ->
  run list_Update textinput_Update textarea_Update (WindowSizeMsg W H :: msgs) main
  = Some p ->
  columns_sized W H (heap (Program_world p))
  /\ length (heap (Program_world p)) = 1%nat
  /\ forall s i col,
       slice_get (heap (Program_world p)) s i = Some col ->
       list_width col = W ÷ 4 /\ list_height col = H ÷ 2.
Proof.
  intros Hk Hrun.
  assert (Hshape := shape_ok_run _ _ _ _ _ Hrun).
  simpl in Hrun.
  destruct (step list_Update textinput_Update textarea_Update (WindowSizeMsg W H) main)
    as [[p1 out]|] eqn:E; simpl in Hrun; [ | discriminate ].
  destruct (first_resize_sized _ textinput_Update textarea_Update Hk W H p1 out E)
    as (Hp1 & Hs1).
  assert (Hs : columns_sized W H (heap (Program_world p)))
    by (eapply columns_sized_run; eauto).
  assert (Hp : past_loading p).
  { clear - Hp1 Hrun. revert p1 Hp1 Hrun.
    induction msgs as [ | msg rest IH ]; intros p1 Hp1 Hrun.
    - injection Hrun as <-. exact Hp1.
    - simpl in Hrun.
      destruct (step list_Update textinput_Update textarea_Update msg p1)
        as [[p2 out2]|] eqn:E2; simpl in Hrun; [ | discriminate ].
      eapply IH; [ | exact Hrun ]. eapply past_loading_step; eauto. }
  split; [ exact Hs | ]. split.
  - unfold shape_ok, past_loading in Hshape, Hp.
    destruct (Program_model p) as [m | f].
    + destruct Hshape as [(_ & _ & Hl) | (Hf & _)]; [ | congruence ].
      apply (f_equal length) in Hl. rewrite length_fmap in Hl. exact Hl.
    + destruct Hshape as (m & Hr & [(_ & _ & Hl) | (Hf & _)] & _);
        destruct Hp as (m' & Hr' & Hl').
      * apply (f_equal length) in Hl. rewrite length_fmap in Hl. exact Hl.
      * congruence.
  - intros s i col Hcol. eapply columns_sized_get; eauto.
Qed.

Lemma sample_list_Update_keeps_size : keeps_size sample_list_Update.
Proof.
  intros msg l. destruct msg as [ | W H | s | t | tag ]; try (split; reflexivity).
  simpl. destruct (String.eqb s "down" || String.eqb s "j"); [ split; reflexivity | ].
  destruct (String.eqb s "up" || String.eqb s "k"); split; reflexivity.
Qed.

Lemma columns_keep_their_first_size_witness :
  columns_sized 80 24 empty_heap
  /\ exists p,
       run sample_list_Update sample_textinput_Update sample_textarea_Update
           [WindowSizeMsg 80 24; KeyMsg "right"; WindowSizeMsg 200 100; KeyMsg "n";
            WindowSizeMsg 10 10] main = Some p
       /\ heap (Program_world p) = empty_heap.
Proof.
  split.
  - refine (proj1 (columns_keep_their_first_size
                     sample_list_Update sample_textinput_Update sample_textarea_Update
                     80 24 [KeyMsg "right"; WindowSizeMsg 200 100; KeyMsg "n";
                            WindowSizeMsg 10 10]
                     (mkProgram (mkWorld empty_heap (IsModel (sample_board inProgress))
                                         (IsForm (NewForm inProgress)))
                                (IsForm (NewForm inProgress)))
                     sample_list_Update_keeps_size _)).
    reflexivity.
  - eexists. split; reflexivity.
Defined.

(** ** Quitting *)

Section Quitting.

Variable list_Update : Msg -> list_Model -> list_Model * widget_Cmd.
Variable textinput_Update : Msg -> textinput_Model -> textinput_Model * widget_Cmd.
Variable textarea_Update : Msg -> textarea_Model -> textarea_Model * widget_Cmd.

Lemma not_quitting_step msg p p' out :
  msg <> KeyMsg "ctrl+c" ->
  not_quitting p ->
  step list_Update textinput_Update textarea_Update msg p = Some (p', out) ->
  not_quitting p'.
Proof.
  intros Hmsg (Ha & Hr) Hstep.
  destruct (step_inv _ _ _ _ _ _ _ Hstep) as (a & c & w & h & Hup & _ & ->).
  unfold not_quitting. simpl. clear Hstep.
  destruct (Program_model p) as [m | f]; simpl in Hup, Ha.
  - destruct (Model_Update_cases _ _ _ _ _ _ _ Hup)
      as [(E0 & E) | [(_ & E) | [(_ & E) | [(_ & E) | [(_ & E) | [(_ & E) |
          [(W & H & _ & _ & E) | E]]]]]]];
      [ contradiction | .. ];
      try (injection E as -> _ ->; simpl; now auto);
      try (destruct (Model_delegate_inv _ _ _ _ _ E) as (col & h1 & _ & _ & Er);
           injection Er as -> _ ->; simpl; split; [ | exact Hr ]).
    + rewrite (Form_Update_other textinput_Update textarea_Update) in E
        by discriminate.
      injection E as -> _ ->. simpl. auto.
    + unfold Model_Prev. destruct (Model_focused m =? todo); exact Ha.
    + unfold Model_Next. destruct (Model_focused m =? done); exact Ha.
    + exact Ha.
    + exact Ha.
  - injection Hup as Hup.
    destruct (Form_Update_cases textinput_Update textarea_Update msg f (Program_world p))
      as [(_ & E) | [(_ & _ & E) | [(_ & _ & E) | (_ & _ & E)]]];
      rewrite E in Hup; injection Hup as <- <- <-; simpl; auto.
Qed.

Lemma not_quitting_run msgs p p' :
  Forall (fun msg => msg <> KeyMsg "ctrl+c") msgs ->
  not_quitting p ->
  run list_Update textinput_Update textarea_Update msgs p = Some p' ->
  not_quitting p'.
Proof.
  intros Hall. revert p. induction Hall as [ | msg rest Hmsg _ IH ]; intros p Hq Hrun.
  - injection Hrun as <-. exact Hq.
  - simpl in Hrun.
    destruct (step list_Update textinput_Update textarea_Update msg p)
      as [[p1 out]|] eqn:E; simpl in Hrun; [ | discriminate ].
    eapply IH; [ | exact Hrun ]. eapply not_quitting_step; eauto.
Qed.

End Quitting.

(** X15. Only ctrl+c makes a board quit: after any messages none of which is
    the ctrl+c key, no board of the program (the active one, or the one saved
    under a form) has its quitting flag set, so the active board never
    renders as the empty string. *)
Theorem only_ctrl_c_quits
  list_View columnStyle_Render focusedStyle_Render JoinHorizontal
  list_Update textinput_Update textarea_Update (msgs : list Msg) (p : Program) :
  Forall (fun msg => msg <> KeyMsg "ctrl+c") msgs ->
  run list_Update textinput_Update textarea_Update msgs main = Some p ->
  not_quitting p
  /\ forall m,
       Program_model p = IsModel m ->
       Model_quitting m = false
       /\ (Model_loaded m = false ->
           Model_View list_View columnStyle_Render focusedStyle_Render
                      JoinHorizontal m (heap (Program_world p))
           = Some "loading...").
Proof.
  intros Hall Hrun.
  assert (Hq : not_quitting p).
  { eapply not_quitting_run; [ exact Hall | | exact Hrun ]. split; reflexivity. }
  split; [ exact Hq | ].
  intros m Hm. destruct Hq as (Ha & _). rewrite Hm in Ha. simpl in Ha.
  split; [ exact Ha | ].
  intros Hl. unfold Model_View. rewrite Ha, Hl. reflexivity.
Qed.

Lemma only_ctrl_c_quits_witness :
  not_quitting
    {| Program_world := mkWorld empty_heap (IsModel (sample_board todo))
                                (IsForm (mkForm todo (mk_textinput "q" false)
                                                (mk_textarea "" true)));
       Program_model := IsModel (sample_board todo) |}.
Proof.
  refine (proj1 (only_ctrl_c_quits
                   list_Title (fun v => v) (String.append "*") (String.concat " | ")
                   sample_list_Update sample_textinput_Update sample_textarea_Update
                   [WindowSizeMsg 80 24; KeyMsg "n"; KeyMsg "q"; KeyMsg "enter";
                    KeyMsg "enter"]
                   _ _ _)).
  - repeat constructor; discriminate.
  - reflexivity.
Defined.
